(** * visualiser.py: the VideoGenerator class

    A shallow embedding of [src/visualiser.py].  The class renders grids of
    integer cells through matplotlib, saves one PNG per frame and calls
    [ffmpeg] twice to assemble a GIF.

    The embedding keeps the effects of the Python code explicit:
    - a heap of dictionary objects (the caller's [colour_scheme] and the
      instance's own [self.colour_scheme] are distinct objects of that heap);
    - a file system keyed by the path strings the f-strings build;
    - pyplot's stack of open figures (the implicit drawing context);
    - a trace of the external calls made ([os.makedirs], [os.remove],
      [savefig], [subprocess.call]);
    - exceptions, as the [Raise] outcome of a state-and-error monad.

    What lies outside the source is kept at its interface: matplotlib records
    what it is asked to draw and writes a file on [savefig] (it is not asked
    whether the data make a valid picture), [ffmpeg] is any program that
    returns an exit status and may change files, and the file system is
    POSIX-like, single-user, with nothing else writing to it. *)

From Stdlib Require Import ZArith Lia Ascii String PrimFloat Uint63 FloatOps.
From stdpp Require Import gmap strings list.

Open Scope Z_scope.

(** ** Python values and exceptions *)

#[local] Set Warnings "-register-all".

(** The values a colour scheme can hold: RGB tuples of numbers, and anything
    else ("scalars", colour names, lists).  Tuples and lists are kept apart
    because [isinstance(tup, tuple)] tells them apart. *)
Inductive pyval : Type :=
  | PyNone
  | PyInt (z : Z)
  | PyFloat (f : float)
  | PyStr (s : string)
  | PyTuple (items : list pyval)
  | PyList (items : list pyval).

(** The exceptions the modelled code can raise, named after the Python class
    and the primitive that raises it. *)
Inductive exn : Type :=
  | AttributeError_items      (* colour_scheme.items() on something that is no dict *)
  | TypeError_truediv         (* v / 255 on a value that is no number *)
  | OverflowError_truediv     (* int / int too large for a float *)
  | ValueError_max_empty      (* max() of an empty iterable *)
  | FileExistsError           (* os.makedirs on a path that is a regular file *)
  | NotADirectoryError        (* a parent of the path is a regular file *)
  | IsADirectoryError         (* os.remove or savefig on a directory *)
  | FileNotFoundError.        (* missing file, missing parent, missing executable *)

Inductive result (A : Type) : Type :=
  | Ok (a : A)
  | Raise (e : exn).
Arguments Ok {A} a.
Arguments Raise {A} e.

Definition is_ok {A} (r : result A) : bool :=
  match r with Ok _ => true | Raise _ => false end.

(** ** True division by 255

    [v / 255] is Python's true division.  On a float it is the IEEE binary64
    division.  On an int it is the correctly rounded quotient of the two
    integers (round half to even), or [OverflowError] when that quotient
    does not fit a binary64. *)

Definition round_half_even (n d : Z) : Z :=
  let q := n / d in
  let r := n mod d in
  if 2 * r <? d then q
  else if d <? 2 * r then q + 1
  else if Z.even q then q else q + 1.

(** [scaled_quotient n e] is [n / (255 * 2^e)] rounded to an integer. *)
Definition scaled_quotient (n e : Z) : Z :=
  if 0 <=? e then round_half_even n (255 * 2 ^ e)
  else round_half_even (n * 2 ^ (- e)) 255.

Definition float_of_mantissa (m e : Z) : float :=
  Z.ldexp (PrimFloat.of_uint63 (Uint63.of_Z m)) e.

Definition int_truediv_255 (a : Z) : result float :=
  if a =? 0 then Ok 0%float
  else
    let n := Z.abs a in
    let k := Z.log2 n - 7 in
    let e := if 2 ^ 52 <=? (if 0 <=? k - 52 then n / (255 * 2 ^ (k - 52))
                            else (n * 2 ^ (52 - k)) / 255)
             then k - 52 else k - 53 in
    let m := scaled_quotient n e in
    if (971 <? e) || ((e =? 971) && (m =? 2 ^ 53)) then Raise OverflowError_truediv
    else
      let f := float_of_mantissa m e in
      Ok (if a <? 0 then PrimFloat.opp f else f).

Definition truediv_255 (v : pyval) : result pyval :=
  match v with
  | PyInt z =>
      match int_truediv_255 z with
      | Ok f => Ok (PyFloat f)
      | Raise e => Raise e
      end
  | PyFloat f => Ok (PyFloat (PrimFloat.div f 255%float))
  | _ => Raise TypeError_truediv
  end.

(** [tuple(v / 255 for v in tup)]: left to right, the first failing
    component raises. *)
Fixpoint tuple_div_255 (tup : list pyval) : result (list pyval) :=
  match tup with
  | [] => Ok []
  | v :: rest =>
      match truediv_255 v with
      | Raise e => Raise e
      | Ok v' =>
          match tuple_div_255 rest with
          | Raise e => Raise e
          | Ok rest' => Ok (v' :: rest')
          end
      end
  end.

(** ** Dictionaries

    A Python [dict] keeps its keys in insertion order and holds every key
    once.  Keys of a colour scheme are Python ints. *)

Abbreviation dict := (list (Z * pyval)).

Fixpoint dict_get (d : dict) (k : Z) : option pyval :=
  match d with
  | [] => None
  | (k', v) :: rest => if k' =? k then Some v else dict_get rest k
  end.

(** [d[k] = v]: an existing key keeps its position, a new key goes last. *)
Fixpoint dict_set (d : dict) (k : Z) (v : pyval) : dict :=
  match d with
  | [] => [(k, v)]
  | (k', v') :: rest =>
      if k' =? k then (k', v) :: rest else (k', v') :: dict_set rest k v
  end.

Definition dict_keys (d : dict) : list Z := d.*1.

(** [max(iterable)] on ints. *)
Definition py_max (l : list Z) : result Z :=
  match l with
  | [] => Raise ValueError_max_empty
  | x :: rest => Ok (foldl Z.max x rest)
  end.

(** [range(n)] *)
Definition py_range (n : Z) : list Z := Z.of_nat <$> seq 0 (Z.to_nat n).

(** ** Strings and paths *)

Open Scope string_scope.

Fixpoint string_existsb (p : ascii → bool) (s : string) : bool :=
  match s with
  | "" => false
  | String c s' => p c || string_existsb p s'
  end.

Definition is_slash (c : ascii) : bool := Ascii.eqb c "/".

Definition has_slash (s : string) : bool := string_existsb is_slash s.

(** [glob.has_magic]: the path holds one of the wildcard characters. *)
Definition has_magic (s : string) : bool :=
  string_existsb (λ c, Ascii.eqb c "*" || Ascii.eqb c "?" || Ascii.eqb c "[") s.

(** [glob._ishidden] *)
Definition is_hidden (s : string) : bool :=
  match s with
  | String c _ => Ascii.eqb c "."
  | "" => false
  end.

Fixpoint strip_prefix (pre s : string) : option string :=
  match pre, s with
  | "", _ => Some s
  | String a pre', String b s' => if Ascii.eqb a b then strip_prefix pre' s' else None
  | String _ _, "" => None
  end.

Fixpoint ends_with (suffix s : string) : bool :=
  String.eqb s suffix ||
  match s with
  | "" => false
  | String _ s' => ends_with suffix s'
  end.

(** The directories above a path, shortest first: ["a"; "a/b"] for
    ["a/b/c"]. *)
Fixpoint parents (p : string) : list string :=
  match p with
  | "" => []
  | String c p' =>
      (if is_slash c then [""] else []) ++ (String c <$> parents p')
  end.

(** The directory a path lies in: the part before its last slash. *)
Definition parent (p : string) : option string := last (parents p).

(** ** The file system

    Paths are the strings the program builds; two paths are the same entry
    when they are the same string. *)

Inductive kind : Type := Directory | Regular.

Abbreviation filesystem := (gmap string kind).

(** [os.mkdir] of one path, with [FileExistsError] on a directory caught as
    [exist_ok=True] does.  [leaf] tells the path asked for from its parents. *)
Definition mkdir_step (leaf : bool) (q : string) (fs : filesystem) : result filesystem :=
  match fs !! q with
  | Some Directory => Ok fs
  | Some Regular => Raise (if leaf then FileExistsError else NotADirectoryError)
  | None => Ok (<[q := Directory]> fs)
  end.

Fixpoint mkdir_chain (qs : list string) (fs : filesystem) : result filesystem :=
  match qs with
  | [] => Ok fs
  | q :: qs' =>
      match mkdir_step false q fs with
      | Ok fs' => mkdir_chain qs' fs'
      | Raise e => Raise e
      end
  end.

(** [os.makedirs(p, exist_ok=True)] *)
Definition makedirs (p : string) (fs : filesystem) : result filesystem :=
  if String.eqb p "" then Raise FileNotFoundError
  else
    match mkdir_chain (filter (λ q, q ≠ "") (parents p)) fs with
    | Ok fs' => mkdir_step true p fs'
    | Raise e => Raise e
    end.

(** [os.remove(p)] *)
Definition os_remove (p : string) (fs : filesystem) : result filesystem :=
  match fs !! p with
  | Some Regular => Ok (delete p fs)
  | Some Directory => Raise IsADirectoryError
  | None => Raise FileNotFoundError
  end.

(** [open(p, "wb")], as [savefig] does: the directory of [p] has to exist. *)
Definition write_file (p : string) (fs : filesystem) : result filesystem :=
  let write :=
    match fs !! p with
    | Some Directory => Raise IsADirectoryError
    | _ => Ok (<[p := Regular]> fs)
    end in
  match parent p with
  | None | Some "" => write
  | Some d =>
      match fs !! d with
      | Some Directory => write
      | Some Regular => Raise NotADirectoryError
      | None => Raise FileNotFoundError
      end
  end.

(** A path matches [dir/*.png]: it lies directly in [dir], its name is not
    hidden and ends in [.png]. *)
Definition png_in (dir p : string) : bool :=
  match strip_prefix (dir +:+ "/") p with
  | Some b => negb (has_slash b) && negb (is_hidden b) && ends_with ".png" b
  | None => false
  end.

(** ** What the host provides

    The executables found on the search path, each with its effect on the
    file system and its exit status, and [glob]'s expansion of a directory
    part that itself holds wildcard characters (left open: the class only
    builds such a pattern when [name] or [output_folder] holds one). *)
Record platform : Type := Platform {
  executable : string → option (list string → filesystem → Z * filesystem);
  glob_in_pattern_dirs : string → filesystem → list string
}.

(** ** pyplot's figures

    A figure records the calls made on it: its size, the images shown, the
    lines plotted, whether the axes are hidden and the layout tightened. *)

Inductive image : Type :=
  | ScalarImage (grid : list (list Z)) (cmap : list pyval)  (* imshow(grid, cmap=...) *)
  | ColourImage (cells : list (list pyval)).                (* imshow of colour cells *)

Record line2d : Type := Line2d {
  xdata : list pyval;
  ydata : list pyval;
  line_colour : string;
  line_marker : string;
  line_style : string
}.

Record figure : Type := Figure {
  figsize : float * float;
  axis_off : bool;
  images : list image;
  lines : list line2d;
  tight : bool
}.

Definition new_figure (size : float * float) : figure :=
  {| figsize := size; axis_off := false; images := []; lines := []; tight := false |}.

(** ** The world and the monad of programs *)

Inductive event : Type :=
  | EvMakedirs (p : string)
  | EvRemove (p : string)
  | EvSavefig (p : string)
  | EvCall (args : list string) (status : option Z).

Abbreviation loc := positive.

Record world : Type := World {
  heap : gmap loc dict;       (* dictionary objects *)
  fs : filesystem;
  figures : list figure;      (* open figures, the current one first *)
  trace : list event          (* external calls made, oldest first *)
}.

Definition M (A : Type) : Type := world → result A * world.

#[export] Instance M_ret : MRet M := λ A a w, (Ok a, w).

#[export] Instance M_bind : MBind M := λ A B f m w,
  match m w with
  | (Ok a, w') => f a w'
  | (Raise e, w') => (Raise e, w')
  end.

Definition raise {A} (e : exn) : M A := λ w, (Raise e, w).

Definition lift {A} (r : result A) : M A := λ w, (r, w).

Fixpoint for_each {A} (l : list A) (body : A → M unit) : M unit :=
  match l with
  | [] => mret tt
  | x :: rest => body x ;; for_each rest body
  end.

Definition log (ev : event) : M unit :=
  λ w, (Ok tt, {| heap := heap w; fs := fs w; figures := figures w;
                  trace := trace w ++ [ev] |}).

(** A file-system call: logged, then applied; the file system is left as
    it was when the call raises. *)
Definition fs_apply (op : filesystem → result filesystem) : M unit :=
  λ w, match op (fs w) with
       | Ok fs' => (Ok tt, {| heap := heap w; fs := fs'; figures := figures w;
                              trace := trace w |})
       | Raise e => (Raise e, w)
       end.

Definition fs_call (ev : event) (op : filesystem → result filesystem) : M unit :=
  log ev ;; fs_apply op.

Definition os_makedirs (p : string) : M unit := fs_call (EvMakedirs p) (makedirs p).
Definition os_remove_call (p : string) : M unit := fs_call (EvRemove p) (os_remove p).

(** [{}]: a new dictionary object. *)
Definition new_dict : M loc :=
  λ w, let l := fresh (dom (heap w)) in
       (Ok l, {| heap := <[l := []]> (heap w); fs := fs w; figures := figures w;
                 trace := trace w |}).

(** Reading a dictionary object; a reference that is no dictionary has no
    [items]. *)
Definition dict_read (l : loc) : M dict :=
  λ w, match heap w !! l with
       | Some d => (Ok d, w)
       | None => (Raise AttributeError_items, w)
       end.

(** [d[k] = v] on the object at [l]. *)
Definition dict_setitem (l : loc) (k : Z) (v : pyval) : M unit :=
  λ w, (Ok tt, {| heap := alter (λ d, dict_set d k v) l (heap w); fs := fs w;
                  figures := figures w; trace := trace w |}).

(** pyplot: the current figure is made on demand ([gcf]). *)
Definition default_figsize : float * float :=
  (0x1.999999999999ap+2%float, 0x1.3333333333333p+2%float).

Definition with_figures (f : list figure → list figure) : M unit :=
  λ w, (Ok tt, {| heap := heap w; fs := fs w; figures := f (figures w);
                  trace := trace w |}).

Definition on_current (f : figure → figure) : M unit :=
  with_figures (λ figs,
    match figs with
    | [] => [f (new_figure default_figsize)]
    | fig :: rest => f fig :: rest
    end).

Definition plt_figure (size : float * float) : M unit :=
  with_figures (λ figs, new_figure size :: figs).

Definition plt_axis_off : M unit :=
  on_current (λ fig, {| figsize := figsize fig; axis_off := true; images := images fig;
                        lines := lines fig; tight := tight fig |}).

Definition plt_imshow (img : image) : M unit :=
  on_current (λ fig, {| figsize := figsize fig; axis_off := axis_off fig;
                        images := images fig ++ [img]; lines := lines fig;
                        tight := tight fig |}).

Definition plt_plot (ln : line2d) : M unit :=
  on_current (λ fig, {| figsize := figsize fig; axis_off := axis_off fig;
                        images := images fig; lines := lines fig ++ [ln];
                        tight := tight fig |}).

Definition plt_tight_layout : M unit :=
  on_current (λ fig, {| figsize := figsize fig; axis_off := axis_off fig;
                        images := images fig; lines := lines fig; tight := true |}).

Definition plt_savefig (p : string) : M unit :=
  on_current (λ fig, fig) ;; fs_call (EvSavefig p) (write_file p).

Definition plt_close : M unit := with_figures (drop 1).

(** ** Formatting integers *)

Open Scope Z_scope.

Definition digit_char (d : Z) : ascii := ascii_of_nat (48 + Z.to_nat d).

(** The decimal digits of a natural number, most significant first. *)
Fixpoint decimal_digits (fuel : nat) (n : Z) : string :=
  match fuel with
  | O => ""
  | S fuel' =>
      if n <? 10 then String (digit_char n) ""
      else decimal_digits fuel' (n / 10) +:+ String (digit_char (n mod 10)) ""
  end.

Definition str_nat (n : Z) : string := decimal_digits (S (Z.to_nat (Z.log2 n))) n.

(** [str(n)] for an int. *)
Definition py_str_int (n : Z) : string :=
  if n <? 0 then "-" +:+ str_nat (- n) else str_nat n.

Fixpoint zeros (k : nat) : string :=
  match k with
  | O => ""
  | S k' => String "0" (zeros k')
  end.

Definition zero_pad (width : nat) (s : string) : string :=
  zeros (width - String.length s) +:+ s.

(** [f"{n:09d}"]: at least nine characters, the sign first, zeros next. *)
Definition format_09d (n : Z) : string :=
  if n <? 0 then "-" +:+ zero_pad 8 (str_nat (- n)) else zero_pad 9 (str_nat n).

(** ** The class *)

Record VideoGenerator : Type := Self {
  name : string;
  output_folder : string;
  frame_folder : string;
  frame_count : Z;
  colour_scheme : loc;        (* reference to the instance's own dictionary *)
  n_colours : Z;
  cmap : list pyval           (* ListedColormap(colors): the colour table *)
}.

Definition black : pyval := PyTuple [PyInt 0; PyInt 0; PyInt 0].

(** Calling a [ListedColormap] on an int: the table entry, indices outside
    the table clipped to its ends. *)
Definition cmap_call (table : list pyval) (cell : Z) : pyval :=
  let n := Z.of_nat (length table) in
  let i := if cell <? 0 then 0 else if n - 1 <? cell then n - 1 else cell in
  default PyNone (table !! Z.to_nat i).

Definition set_frame_count (self : VideoGenerator) (c : Z) : VideoGenerator :=
  {| name := name self; output_folder := output_folder self;
     frame_folder := frame_folder self; frame_count := c;
     colour_scheme := colour_scheme self; n_colours := n_colours self;
     cmap := cmap self |}.

Definition run_dir (self : VideoGenerator) : string :=
  output_folder self +:+ "/" +:+ name self.

Definition frame_path (self : VideoGenerator) : string :=
  output_folder self +:+ "/" +:+ name self +:+ "/" +:+ frame_folder self.

Definition frame_file (self : VideoGenerator) (count : Z) : string :=
  output_folder self +:+ "/" +:+ name self +:+ "/" +:+ frame_folder self
    +:+ "/" +:+ format_09d count +:+ ".png".

Section Host.

Variable host : platform.

(** [glob.glob(dir + "/*.png")] *)
Definition glob_png (dir : string) : M (list string) :=
  λ w,
    (Ok (if has_magic dir then glob_in_pattern_dirs host dir (fs w)
         else match fs w !! dir with
              | Some Directory => filter (λ p, png_in dir p) (elements (dom (fs w)))
              | _ => []
              end), w).

(** [subprocess.call(args)]: runs [args[0]], waits and returns its exit
    status; the executable missing, starting it raises. *)
Definition subprocess_call (args : list string) : M Z :=
  λ w,
    match executable host (hd "" args) with
    | None =>
        (Raise FileNotFoundError,
         {| heap := heap w; fs := fs w; figures := figures w;
            trace := trace w ++ [EvCall args None] |})
    | Some run =>
        let '(status, fs') := run args (fs w) in
        (Ok status,
         {| heap := heap w; fs := fs'; figures := figures w;
            trace := trace w ++ [EvCall args (Some status)] |})
    end.

Definition clear_frame_folder (self : VideoGenerator) : M unit :=
  let frame_path := frame_path self in
  file_names ← glob_png frame_path;
  for_each file_names (λ file_name, os_remove_call file_name).

Definition create_colormap (self : VideoGenerator) : M (list pyval) :=
  d ← dict_read (colour_scheme self);
  max_index ← lift (py_max (dict_keys d));
  mret ((λ i, default black (dict_get d i)) <$> py_range (max_index + 1)).

Definition generate_palette (self : VideoGenerator) : M unit :=
  let grid := [py_range (n_colours self)] in
  plt_figure (2%float, 0.5%float) ;;
  plt_imshow (ScalarImage grid (cmap self)) ;;
  plt_axis_off ;;
  plt_tight_layout ;;
  plt_savefig (run_dir self +:+ "/generated_palette.png") ;;
  plt_close.

Definition draw_frame (self : VideoGenerator) (frame : list (list Z)) : M unit :=
  let cells : list (list pyval) :=
    (λ row : list Z, cmap_call (cmap self) <$> row) <$> frame in
  plt_figure (8%float, 8%float) ;;
  plt_axis_off ;;
  plt_imshow (ColourImage cells).

Definition draw_line (x y : list pyval) (colour linestyle marker : string) : M unit :=
  plt_plot {| xdata := x; ydata := y; line_colour := colour; line_marker := marker;
              line_style := linestyle |}.

Definition print_frame (self : VideoGenerator) : M VideoGenerator :=
  plt_tight_layout ;;
  plt_savefig (frame_file self (frame_count self)) ;;
  let self := set_frame_count self (frame_count self + 1) in
  plt_close ;;
  mret self.

Definition palettegen_args (self : VideoGenerator) : list string :=
  [ "ffmpeg"; "-y";
    "-i"; run_dir self +:+ "/generated_palette.png";
    "-vf"; "palettegen";
    run_dir self +:+ "/palette.png" ].

Definition paletteuse_args (self : VideoGenerator) (framerate : Z) : list string :=
  [ "ffmpeg"; "-y";
    "-framerate"; py_str_int framerate;
    "-i"; frame_path self +:+ "/%09d.png";
    "-i"; run_dir self +:+ "/palette.png";
    "-filter_complex"; "paletteuse";
    run_dir self +:+ "/" +:+ name self +:+ ".gif" ].

(** [framerate] is a Python int, as in the default and in the example of
    the source file: [str(framerate)] is its decimal form. *)
Definition print_video (self : VideoGenerator) (framerate : Z) (clear_frames : bool)
  : M unit :=
  subprocess_call (palettegen_args self) ;;
  subprocess_call (paletteuse_args self framerate) ;;
  if clear_frames then clear_frame_folder self else mret tt.

(** The body of the loop of lines 18-23, [own] being [self.colour_scheme]. *)
Definition normalise_entry (own : loc) (item : Z * pyval) : M unit :=
  let '(colour, tup) := item in
  match tup with
  | PyTuple components =>
      normalised ← lift (tuple_div_255 components);
      dict_setitem own colour (PyTuple normalised)
  | _ => dict_setitem own colour tup
  end.

(** [VideoGenerator(name, colour_scheme, output_folder)]; [colour_scheme] is
    a reference, as every Python argument is. *)
Definition init (name : string) (colour_scheme : loc) (output_folder : string)
  : M VideoGenerator :=
  own ← new_dict;
  items ← dict_read colour_scheme;
  for_each items (normalise_entry own) ;;
  stored ← dict_read own;
  let self := {| name := name; output_folder := output_folder; frame_folder := "frames";
                 frame_count := 1; colour_scheme := own;
                 n_colours := Z.of_nat (length stored); cmap := [] |} in
  colors ← create_colormap self;
  let self := {| name := name; output_folder := output_folder; frame_folder := "frames";
                 frame_count := 1; colour_scheme := own;
                 n_colours := Z.of_nat (length stored); cmap := colors |} in
  os_makedirs output_folder ;;
  os_makedirs (output_folder +:+ "/" +:+ name) ;;
  os_makedirs (output_folder +:+ "/" +:+ name +:+ "/" +:+ "frames") ;;
  clear_frame_folder self ;;
  generate_palette self ;;
  mret self.

(** The methods a caller can invoke on an instance. *)
Inductive method : Type :=
  | ClearFrameFolder
  | CreateColormap
  | GeneratePalette
  | DrawFrame (frame : list (list Z))
  | DrawLine (x y : list pyval) (colour linestyle marker : string)
  | PrintFrame
  | PrintVideo (framerate : Z) (clear_frames : bool).

Definition call (self : VideoGenerator) (m : method) : M VideoGenerator :=
  match m with
  | ClearFrameFolder => clear_frame_folder self ;; mret self
  | CreateColormap => create_colormap self ;; mret self
  | GeneratePalette => generate_palette self ;; mret self
  | DrawFrame frame => draw_frame self frame ;; mret self
  | DrawLine x y colour linestyle marker =>
      draw_line x y colour linestyle marker ;; mret self
  | PrintFrame => print_frame self
  | PrintVideo framerate clear_frames =>
      print_video self framerate clear_frames ;; mret self
  end.

Fixpoint calls (self : VideoGenerator) (ms : list method) : M VideoGenerator :=
  match ms with
  | [] => mret self
  | m :: rest => self' ← call self m; calls self' rest
  end.

End Host.

(** The defaults of [__init__]: the dictionary [{0: (0,0,0)}] is built once,
    when the class is defined, and every call that omits [colour_scheme]
    receives that same object. *)
Definition default_colour_scheme : loc := 1%positive.
Definition default_output_folder : string := "visualisations".

(** The defaults of [draw_line] and [print_video]. *)
Definition default_line_colour : string := "red".
Definition default_linestyle : string := "dashed".
Definition default_marker : string := "o".
Definition default_framerate : Z := 10.
Definition default_clear_frames : bool := true.

Definition class_defined : world :=
  {| heap := {[ default_colour_scheme := [(0, black)] ]}; fs := ∅; figures := [];
     trace := [] |}.

(** ** Notions used in the statements *)

(** The [w] low decimal digits of [n], most significant first. *)
Fixpoint fixed_digits (w : nat) (n : Z) : string :=
  match w with
  | O => ""
  | S w' => fixed_digits w' (n / 10) +:+ String (digit_char (n mod 10)) ""
  end.

(** The value the loop of [__init__] stores for a value of the caller's
    mapping, and the dictionary it builds from the caller's items. *)
Definition normalised_value (tup : pyval) : result pyval :=
  match tup with
  | PyTuple items =>
      match tuple_div_255 items with
      | Ok items' => Ok (PyTuple items')
      | Raise e => Raise e
      end
  | other => Ok other
  end.

Fixpoint normalise_items (items : dict) (acc : dict) : result dict :=
  match items with
  | [] => Ok acc
  | (k, v) :: rest =>
      match normalised_value v with
      | Ok v' => normalise_items rest (dict_set acc k v')
      | Raise e => Raise e
      end
  end.

(** The colour table [create_colormap] builds from a dictionary whose
    largest key is [max_index]. *)
Definition colour_table (d : dict) (max_index : Z) : list pyval :=
  (λ i, default black (dict_get d i)) <$> py_range (max_index + 1).

Definition is_print_frame (m : method) : bool :=
  match m with PrintFrame => true | _ => false end.


(** The number of [print_frame] calls in a sequence of calls. *)
Definition persist_calls (ms : list method) : Z :=
  Z.of_nat (length (filter (λ m, is_print_frame m) ms)).

Definition set_heap (w : world) (h : gmap loc dict) : world :=
  {| heap := h; fs := fs w; figures := figures w; trace := trace w |}.


(** A host with an [ffmpeg] that exits with [status] and writes nothing,
    and a host without any executable. *)
Definition host_with_ffmpeg (status : Z) : platform :=
  {| executable := λ prog,
       if String.eqb prog "ffmpeg" then Some (λ _ files, (status, files)) else None;
     glob_in_pattern_dirs := λ _ _, [] |}.

Definition host_without_ffmpeg : platform :=
  {| executable := λ _, None; glob_in_pattern_dirs := λ _ _, [] |}.

(** The colour scheme of the example at the end of the source file, as a
    caller's dictionary at reference 2. *)
Definition example_scheme : dict :=
  [ (0, PyTuple [PyInt 255; PyInt 255; PyInt 255]);
    (1, PyTuple [PyInt 255; PyInt 0; PyInt 0]);
    (2, PyTuple [PyInt 0; PyInt 255; PyInt 0]);
    (3, PyTuple [PyInt 0; PyInt 0; PyInt 255]) ].

Definition example_world : world :=
  {| heap := <[ 2%positive := example_scheme ]> (heap class_defined); fs := ∅;
     figures := []; trace := [] |}.

(** ** Further notions used in the statements *)




(** The calls that draw on the current figure, and those that draw or save. *)
Definition is_draw_line (m : method) : bool :=
  match m with DrawLine _ _ _ _ _ => true | _ => false end.

Definition is_draw_or_print (m : method) : bool :=
  match m with
  | DrawFrame _ | DrawLine _ _ _ _ _ | PrintFrame => true
  | _ => false
  end.

(** The digit a character stands for. *)
Definition digit_value (c : ascii) : Z := Z.of_N (N_of_ascii c) - 48.

(** The number a string of decimal digits stands for, read after [acc]. *)
Fixpoint digits_value_from (acc : Z) (s : string) : Z :=
  match s with
  | "" => acc
  | String c s' => digits_value_from (10 * acc + digit_value c) s'
  end.

(** ** The example program

    Lines 114-134 of the source file: the program run when the file is
    executed as a script. *)

(** A dictionary display [{k: v, ...}]: a new object, filled entry by
    entry. *)
Definition new_dict_of (entries : dict) : M loc :=
  l ← new_dict;
  for_each entries (λ '(k, v), dict_setitem l k v) ;;
  mret l.

(** A [for] loop whose body updates local variables. *)
Fixpoint for_state {A S} (l : list A) (s : S) (body : A → S → M S) : M S :=
  match l with
  | [] => mret s
  | x :: rest => s' ← body x s; for_state rest s' body
  end.

(** [data[i][j] = v], for indices inside the grid. *)
Definition set_cell (data : list (list Z)) (i j v : Z) : list (list Z) :=
  alter (λ row, <[Z.to_nat j := v]> row) (Z.to_nat i) data.

Definition main_step (color : Z) (state : VideoGenerator * list (list Z))
  : M (VideoGenerator * list (list Z)) :=
  let size := 3 in
  let data := set_cell state.2 (size / 2) (size / 2) color in
  draw_frame state.1 data ;;
  vg ← print_frame state.1;
  mret (vg, data).

Definition main (host : platform) : M unit :=
  scheme ← new_dict_of
    [ (0, PyTuple [PyInt 255; PyInt 255; PyInt 255]);
      (1, PyTuple [PyInt 255; PyInt 0; PyInt 0]);
      (2, PyTuple [PyInt 0; PyInt 255; PyInt 0]);
      (3, PyTuple [PyInt 0; PyInt 0; PyInt 255]) ];
  vg ← init host "test" scheme default_output_folder;
  let size := 3 in
  let data := replicate (Z.to_nat size) (replicate (Z.to_nat size) 0) in
  state ← for_state (py_range 4) (vg, data) main_step;
  print_video host state.1 4 default_clear_frames.

(** * Properties *)

Open Scope list_scope.

(** ** Lexicographic order of strings *)

Section StringOrder.

Local Open Scope string_scope.

Lemma string_app_cons (c : ascii) (a b : string) : String c a +:+ b = String c (a +:+ b).
Proof. reflexivity. Qed.

Lemma string_app_nil_l (a : string) : "" +:+ a = a.
Proof. reflexivity. Qed.

Lemma ascii_compare_refl (a : ascii) : Ascii.compare a a = Eq.
Proof. unfold Ascii.compare. apply N.compare_refl. Qed.

Lemma string_compare_app_l (p a b : string) :
  String.compare (p +:+ a) (p +:+ b) = String.compare a b.
Proof.
  induction p as [|c p IH]; [reflexivity|].
  rewrite !string_app_cons. simpl. now rewrite ascii_compare_refl.
Qed.

Lemma string_compare_app_Lt (a b x y : string) :
  String.length a = String.length b →
  String.compare a b = Lt →
  String.compare (a +:+ x) (b +:+ y) = Lt.
Proof.
  revert b. induction a as [|c a IH]; intros [|d b] Hlen Hcmp; try discriminate.
  rewrite !string_app_cons. simpl in *.
  destruct (Ascii.compare c d); try discriminate; [|reflexivity].
  apply IH; [congruence | assumption].
Qed.

Lemma string_compare_single_Lt (a b : ascii) :
  Ascii.compare a b = Lt → String.compare (String a "") (String b "") = Lt.
Proof. intros H. cbn [String.compare]. now rewrite H. Qed.

Lemma string_length_app (a b : string) :
  String.length (a +:+ b) = (String.length a + String.length b)%nat.
Proof.
  induction a as [|c a IH]; [reflexivity|].
  rewrite string_app_cons. simpl. now rewrite IH.
Qed.

Lemma string_app_assoc (a b c : string) : (a +:+ b) +:+ c = a +:+ (b +:+ c).
Proof.
  induction a as [|x a IH]; [reflexivity|].
  rewrite !string_app_cons. now rewrite IH.
Qed.

End StringOrder.

(** ** Decimal formatting *)

Lemma digit_char_code (d : Z) :
  0 ≤ d ≤ 9 → N_of_ascii (digit_char d) = (48 + Z.to_N d)%N.
Proof.
  intros Hd.
  assert (d = 0 ∨ d = 1 ∨ d = 2 ∨ d = 3 ∨ d = 4 ∨ d = 5 ∨ d = 6 ∨ d = 7 ∨ d = 8 ∨ d = 9)
    as Hcases by lia.
  repeat (destruct Hcases as [-> | Hcases]; [reflexivity|]).
  now subst.
Qed.

Lemma digit_char_lt (a b : Z) :
  0 ≤ a → a < b → b ≤ 9 → Ascii.compare (digit_char a) (digit_char b) = Lt.
Proof.
  intros Ha Hab Hb. unfold Ascii.compare.
  rewrite !digit_char_code by lia. apply N.compare_lt_iff. lia.
Qed.

Lemma fixed_digits_length (w : nat) (n : Z) : String.length (fixed_digits w n) = w.
Proof.
  revert n. induction w as [|w IH]; intros n; simpl; [reflexivity|].
  rewrite string_length_app, IH. simpl. lia.
Qed.

Lemma fixed_digits_lt (w : nat) (i j : Z) :
  0 ≤ i → i < j → j < 10 ^ Z.of_nat w →
  String.compare (fixed_digits w i) (fixed_digits w j) = Lt.
Proof.
  revert i j. induction w as [|w IH]; intros i j Hi Hij Hj.
  - simpl in Hj. lia.
  - simpl. rewrite Nat2Z.inj_succ, Z.pow_succ_r in Hj by lia.
    destruct (Z.eq_dec (i / 10) (j / 10)) as [Heq | Hne].
    + rewrite Heq, string_compare_app_l.
      apply string_compare_single_Lt, digit_char_lt.
      * apply Z.mod_pos_bound. lia.
      * pose proof (Z.div_mod i 10). pose proof (Z.div_mod j 10). lia.
      * pose proof (Z.mod_pos_bound j 10). lia.
    + apply string_compare_app_Lt.
      * now rewrite !fixed_digits_length.
      * apply IH.
        -- apply Z.div_pos; lia.
        -- pose proof (Z.div_le_mono i j 10). lia.
        -- apply Z.div_lt_upper_bound; lia.
Qed.

Lemma zeros_snoc (w : nat) : zeros w +:+ "0" = String "0" (zeros w).
Proof.
  induction w as [|w IH]; [reflexivity|].
  cbn [zeros]. rewrite string_app_cons. now rewrite IH.
Qed.

Lemma fixed_digits_zero (w : nat) : fixed_digits w 0 = zeros w.
Proof.
  induction w as [|w IH]; [reflexivity|].
  cbn [fixed_digits]. change (0 / 10) with 0. change (digit_char (0 mod 10)) with "0"%char.
  rewrite IH. apply zeros_snoc.
Qed.

Lemma decimal_digits_length_pos (fuel : nat) (n : Z) :
  (0 < fuel)%nat → (0 < String.length (decimal_digits fuel n))%nat.
Proof.
  destruct fuel as [|fuel]; [lia|]. intros _. simpl.
  destruct (n <? 10); simpl; [lia|].
  rewrite string_length_app. simpl. lia.
Qed.

(** Padding the digits of [n] to [w] places gives its [w] low digits, as
    soon as [n] has at most [w] digits. *)
Lemma zero_pad_decimal_digits (fuel w : nat) (n : Z) :
  0 ≤ n → n < 10 ^ Z.of_nat fuel → n < 10 ^ Z.of_nat w → (0 < fuel)%nat → (0 < w)%nat →
  zero_pad w (decimal_digits fuel n) = fixed_digits w n.
Proof.
  revert w n. induction fuel as [|fuel IH]; intros w n Hn Hfuel Hw Hf0 Hw0; [lia|].
  destruct w as [|w]; [lia|].
  simpl decimal_digits. destruct (n <? 10) eqn:Hlt.
  - apply Z.ltb_lt in Hlt. unfold zero_pad. simpl.
    rewrite Z.div_small, Z.mod_small by lia.
    rewrite fixed_digits_zero. now rewrite Nat.sub_0_r.
  - apply Z.ltb_ge in Hlt.
    rewrite Nat2Z.inj_succ, Z.pow_succ_r in Hfuel, Hw by lia.
    assert (0 < fuel)%nat by (destruct fuel; [simpl in Hfuel; lia | lia]).
    assert (0 < w)%nat by (destruct w; [simpl in Hw; lia | lia]).
    cbn [fixed_digits]. rewrite <- (IH w (n / 10)); try lia.
    + unfold zero_pad. rewrite string_length_app. simpl String.length.
      rewrite string_app_assoc. f_equal. f_equal.
      pose proof (decimal_digits_length_pos fuel (n / 10)). lia.
    + apply Z.div_pos; lia.
    + apply Z.div_lt_upper_bound; lia.
    + apply Z.div_lt_upper_bound; lia.
Qed.

Lemma str_nat_fuel (n : Z) : 0 ≤ n → n < 10 ^ Z.of_nat (S (Z.to_nat (Z.log2 n))).
Proof.
  intros Hn. destruct (Z.eq_dec n 0) as [-> | Hne]; [reflexivity|].
  pose proof (Z.log2_spec n ltac:(lia)) as [_ Hup].
  pose proof (Z.log2_nonneg n) as Hlog.
  rewrite Nat2Z.inj_succ, Z2Nat.id by lia.
  eapply Z.lt_le_trans; [exact Hup|].
  apply Z.pow_le_mono_l. lia.
Qed.

Lemma format_09d_fixed (n : Z) :
  0 ≤ n → n < 10 ^ 9 → format_09d n = fixed_digits 9 n.
Proof.
  intros Hn Hlt. unfold format_09d.
  destruct (n <? 0) eqn:Hneg; [apply Z.ltb_lt in Hneg; lia|].
  unfold str_nat. apply zero_pad_decimal_digits; try lia.
  all: try exact Hlt; now apply str_nat_fuel.
Qed.

(** ** Running programs of the monad *)

Lemma bind_run {A B} (m : M A) (f : A → M B) (w : world) :
  (m ≫= f) w =
  match m w with
  | (Ok a, w') => f a w'
  | (Raise e, w') => (Raise e, w')
  end.
Proof. reflexivity. Qed.

Lemma bind_ok_inv {A B} (m : M A) (f : A → M B) (w w' : world) (b : B) :
  (m ≫= f) w = (Ok b, w') → ∃ a w1, m w = (Ok a, w1) ∧ f a w1 = (Ok b, w').
Proof.
  rewrite bind_run. destruct (m w) as [[a|e] w1]; [eauto | discriminate].
Qed.

(** Splits a successful run of [m ≫= f] into the run of [m] and that of [f]. *)
Ltac bind_inv H :=
  let a := fresh "a" in
  let w1 := fresh "w" in
  let E := fresh "E" in
  apply bind_ok_inv in H; destruct H as (a & w1 & E & H).

(** A program preserves a relation between the worlds before and after. *)
Definition preserved {A} (R : relation world) (m : M A) : Prop :=
  ∀ w, R w (m w).2.

(** The worlds agree on one component. *)
Definition same {B} (field : world → B) : relation world :=
  λ w w', field w' = field w.

#[export] Instance same_preorder {B} (field : world → B) : PreOrder (same field).
Proof. split; unfold same; [intros w; reflexivity | intros w1 w2 w3; congruence]. Qed.

Create HintDb frame.

Section Preserved.

Context (R : relation world) `{!PreOrder R}.

Lemma preserved_ret {A} (a : A) : preserved R (mret a).
Proof. intros w. simpl. reflexivity. Qed.

Lemma preserved_raise {A} (e : exn) : preserved R (raise (A := A) e).
Proof. intros w. simpl. reflexivity. Qed.

Lemma preserved_lift {A} (r : result A) : preserved R (lift r).
Proof. intros w. simpl. reflexivity. Qed.

Lemma preserved_bind {A B} (m : M A) (f : A → M B) :
  preserved R m → (∀ a, preserved R (f a)) → preserved R (m ≫= f).
Proof.
  intros Hm Hf w. rewrite bind_run. specialize (Hm w).
  destruct (m w) as [[a|e] w1]; simpl in *; [|assumption].
  etransitivity; [exact Hm | apply Hf].
Qed.

Lemma preserved_for_each {A} (l : list A) (body : A → M unit) :
  (∀ x, preserved R (body x)) → preserved R (for_each l body).
Proof.
  intros Hbody. induction l as [|x l IH]; simpl.
  - apply preserved_ret.
  - apply preserved_bind; auto.
Qed.

Lemma preserved_dict_read (l : loc) : preserved R (dict_read l).
Proof. intros w. unfold dict_read. destruct (heap w !! l); simpl; reflexivity. Qed.

End Preserved.

#[export] Hint Resolve preserved_ret preserved_raise preserved_lift preserved_dict_read : frame.

(** Which components each primitive leaves alone. *)

Lemma log_heap ev : preserved (same heap) (log ev).
Proof. intros w. reflexivity. Qed.
Lemma log_fs ev : preserved (same fs) (log ev).
Proof. intros w. reflexivity. Qed.
Lemma log_figures ev : preserved (same figures) (log ev).
Proof. intros w. reflexivity. Qed.

Lemma fs_apply_heap op : preserved (same heap) (fs_apply op).
Proof. intros w. unfold fs_apply. destruct (op (fs w)); reflexivity. Qed.
Lemma fs_apply_figures op : preserved (same figures) (fs_apply op).
Proof. intros w. unfold fs_apply. destruct (op (fs w)); reflexivity. Qed.
Lemma fs_apply_trace op : preserved (same trace) (fs_apply op).
Proof. intros w. unfold fs_apply. destruct (op (fs w)); reflexivity. Qed.

Lemma with_figures_heap f : preserved (same heap) (with_figures f).
Proof. intros w. reflexivity. Qed.
Lemma with_figures_fs f : preserved (same fs) (with_figures f).
Proof. intros w. reflexivity. Qed.
Lemma with_figures_trace f : preserved (same trace) (with_figures f).
Proof. intros w. reflexivity. Qed.

Lemma new_dict_fs : preserved (same fs) new_dict.
Proof. intros w. reflexivity. Qed.
Lemma new_dict_trace : preserved (same trace) new_dict.
Proof. intros w. reflexivity. Qed.
Lemma new_dict_figures : preserved (same figures) new_dict.
Proof. intros w. reflexivity. Qed.

Lemma dict_setitem_fs l k v : preserved (same fs) (dict_setitem l k v).
Proof. intros w. reflexivity. Qed.
Lemma dict_setitem_trace l k v : preserved (same trace) (dict_setitem l k v).
Proof. intros w. reflexivity. Qed.
Lemma dict_setitem_figures l k v : preserved (same figures) (dict_setitem l k v).
Proof. intros w. reflexivity. Qed.

#[export] Hint Resolve log_heap log_fs log_figures fs_apply_heap fs_apply_figures
  fs_apply_trace with_figures_heap with_figures_fs with_figures_trace new_dict_fs
  new_dict_trace new_dict_figures dict_setitem_fs dict_setitem_trace
  dict_setitem_figures : frame.

(** Proves [preserved R m] for a program built from the primitives. *)
Ltac frame :=
  repeat first
    [ progress intros
    | apply preserved_bind
    | apply preserved_for_each
    | solve [eauto with frame typeclass_instances]
    | match goal with
      | |- preserved _ (match ?x with _ => _ end) => destruct x
      | |- preserved _ (if ?b then _ else _) => destruct b
      | |- preserved _ (let _ := _ in _) => cbv zeta
      end ].

Section HostFrames.

Variable host : platform.

Lemma glob_png_preserved (R : relation world) `{!PreOrder R} dir :
  preserved R (glob_png host dir).
Proof. intros w. simpl. reflexivity. Qed.

Lemma subprocess_call_heap args : preserved (same heap) (subprocess_call host args).
Proof.
  intros w. unfold subprocess_call. destruct (executable host _) as [run|]; [|reflexivity].
  destruct (run args (fs w)). reflexivity.
Qed.

Lemma subprocess_call_figures args : preserved (same figures) (subprocess_call host args).
Proof.
  intros w. unfold subprocess_call. destruct (executable host _) as [run|]; [|reflexivity].
  destruct (run args (fs w)). reflexivity.
Qed.

Hint Resolve glob_png_preserved subprocess_call_heap subprocess_call_figures : frame.

(** No method writes a dictionary. *)
Lemma call_heap (self : VideoGenerator) (m : method) :
  preserved (same heap) (call host self m).
Proof.
  destruct m; unfold call, clear_frame_folder, create_colormap, generate_palette,
    draw_frame, draw_line, print_frame, print_video, plt_figure, plt_imshow, plt_axis_off,
    plt_tight_layout, plt_savefig, plt_close, plt_plot, on_current, os_remove_call,
    fs_call; frame.
Qed.

Lemma calls_heap (self : VideoGenerator) (ms : list method) :
  preserved (same heap) (calls host self ms).
Proof.
  revert self. induction ms as [|m ms IH]; intros self; simpl.
  - frame.
  - apply preserved_bind; [apply _ | apply call_heap | auto].
Qed.

End HostFrames.

(** ** The normalisation loop *)

Lemma alter_lookup_insert (h : gmap loc dict) (l : loc) (d : dict) (f : dict → dict) :
  h !! l = Some d → alter f l h = <[l := f d]> h.
Proof.
  intros Hl. apply map_eq. intros i.
  destruct (decide (l = i)) as [<- | Hne].
  - now rewrite lookup_alter_eq, lookup_insert_eq, Hl.
  - now rewrite lookup_alter_ne, lookup_insert_ne.
Qed.

Lemma normalise_entry_run (own : loc) (k : Z) (v : pyval) (acc : dict) (w : world) :
  heap w !! own = Some acc →
  normalise_entry own (k, v) w =
  match normalised_value v with
  | Ok v' => (Ok tt, set_heap w (<[own := dict_set acc k v']> (heap w)))
  | Raise e => (Raise e, w)
  end.
Proof.
  intros Hown. unfold normalise_entry, normalised_value.
  destruct v; try (unfold dict_setitem, set_heap; now rewrite (alter_lookup_insert _ _ acc)).
  rewrite bind_run. unfold lift. destruct (tuple_div_255 items); [|reflexivity].
  unfold dict_setitem, set_heap. now rewrite (alter_lookup_insert _ _ acc).
Qed.

(** The loop stores in the instance's dictionary what [normalise_items]
    computes, and raises where it raises. *)
Lemma normalise_loop_run (own : loc) (items acc : dict) (w : world) :
  heap w !! own = Some acc →
  ∃ acc',
    for_each items (normalise_entry own) w =
      (match normalise_items items acc with
       | Ok _ => Ok tt
       | Raise e => Raise e
       end, set_heap w (<[own := acc']> (heap w))) ∧
    (∀ s, normalise_items items acc = Ok s → acc' = s).
Proof.
  revert acc w. induction items as [|[k v] items IH]; intros acc w Hown.
  - exists acc. simpl. split; [|congruence].
    unfold set_heap. rewrite insert_id by assumption. now destruct w.
  - cbn [for_each normalise_items]. rewrite bind_run, (normalise_entry_run _ _ _ acc) by assumption.
    destruct (normalised_value v) as [v'|e].
    + destruct (IH (dict_set acc k v') (set_heap w (<[own := dict_set acc k v']> (heap w))))
        as (acc' & Hrun & Hacc); [apply lookup_insert_eq|].
      exists acc'. split; [|assumption].
      rewrite Hrun. cbn [heap set_heap]. rewrite insert_insert_eq. reflexivity.
    + exists acc. split; [|discriminate].
      unfold set_heap. rewrite insert_id by assumption. now destruct w.
Qed.

Lemma dict_set_not_nil (d : dict) (k : Z) (v : pyval) : dict_set d k v ≠ [].
Proof. destruct d as [|[k' v'] d]; simpl; [discriminate|]. destruct (k' =? k); discriminate. Qed.

Lemma normalise_items_not_nil (items acc s : dict) :
  normalise_items items acc = Ok s → items ≠ [] ∨ acc ≠ [] → s ≠ [].
Proof.
  revert acc. induction items as [|[k v] items IH]; intros acc Hs Hne; simpl in Hs.
  - injection Hs as <-. destruct Hne; congruence.
  - destruct (normalised_value v); [|discriminate].
    eapply IH; [eassumption|]. right. apply dict_set_not_nil.
Qed.

(** ** Construction, step by step *)

Section Construction.

Variable host : platform.

(** The instance [__init__] returns for a normalised dictionary [s] stored
    at [own]. *)
Definition built (name out : string) (own : loc) (s : dict) (max_index : Z)
  : VideoGenerator :=
  {| name := name; output_folder := out; frame_folder := "frames"; frame_count := 1;
     colour_scheme := own; n_colours := Z.of_nat (length s);
     cmap := colour_table s max_index |}.

Lemma create_colormap_run (self : VideoGenerator) (d : dict) (w : world) :
  heap w !! colour_scheme self = Some d →
  create_colormap self w =
  match py_max (dict_keys d) with
  | Ok max_index => (Ok (colour_table d max_index), w)
  | Raise e => (Raise e, w)
  end.
Proof.
  intros Hd. unfold create_colormap. rewrite bind_run. unfold dict_read. rewrite Hd.
  rewrite bind_run. unfold lift. now destruct (py_max (dict_keys d)).
Qed.

Lemma os_makedirs_run (p : string) (w : world) :
  os_makedirs p w =
  match makedirs p (fs w) with
  | Ok files => (Ok tt, {| heap := heap w; fs := files; figures := figures w;
                           trace := trace w ++ [EvMakedirs p] |})
  | Raise e => (Raise e, {| heap := heap w; fs := fs w; figures := figures w;
                            trace := trace w ++ [EvMakedirs p] |})
  end.
Proof.
  unfold os_makedirs, fs_call. rewrite bind_run. unfold log, fs_apply. cbn [fs heap figures trace].
  now destruct (makedirs p (fs w)).
Qed.

(** What a successful construction did. *)
Lemma init_inv (name : string) (cs : loc) (out : string) (w w1 : world)
    (self : VideoGenerator) :
  init host name cs out w = (Ok self, w1) →
  let own := fresh (dom (heap w)) in
  ∃ d s max_index files1 files2 files3 wc,
    <[own := []]> (heap w) !! cs = Some d ∧
    normalise_items d [] = Ok s ∧
    py_max (dict_keys s) = Ok max_index ∧
    self = built name out own s max_index ∧
    makedirs out (fs w) = Ok files1 ∧
    makedirs (out +:+ "/" +:+ name) files1 = Ok files2 ∧
    makedirs (out +:+ "/" +:+ name +:+ "/" +:+ "frames") files2 = Ok files3 ∧
    clear_frame_folder host self
      {| heap := <[own := s]> (heap w); fs := files3; figures := figures w;
         trace := trace w ++ [EvMakedirs out; EvMakedirs (out +:+ "/" +:+ name);
                              EvMakedirs (out +:+ "/" +:+ name +:+ "/" +:+ "frames")] |}
      = (Ok tt, wc) ∧
    generate_palette self wc = (Ok tt, w1).
Proof.
  intros Hinit own. unfold init in Hinit.
  rewrite bind_run in Hinit. unfold new_dict in Hinit. fold own in Hinit.
  rewrite bind_run in Hinit. unfold dict_read at 1 in Hinit. cbn [heap] in Hinit.
  destruct (<[own := []]> (heap w) !! cs) as [d|] eqn:Hd; [|discriminate].
  rewrite bind_run in Hinit.
  match type of Hinit with context [for_each d _ ?w0] =>
    destruct (normalise_loop_run own d [] w0) as (s & Hloop & Hs);
      [apply lookup_insert_eq|] end.
  rewrite Hloop in Hinit. clear Hloop.
  destruct (normalise_items d []) as [s'|e] eqn:Hnorm; [|discriminate].
  specialize (Hs s' eq_refl). subst s'.
  unfold set_heap in Hinit. cbn [heap fs figures trace] in Hinit.
  rewrite insert_insert_eq in Hinit.
  rewrite bind_run in Hinit. unfold dict_read at 1 in Hinit. cbn [heap] in Hinit.
  rewrite lookup_insert_eq in Hinit.
  rewrite bind_run in Hinit.
  rewrite (create_colormap_run _ s) in Hinit by apply lookup_insert_eq.
  destruct (py_max (dict_keys s)) as [max_index|e] eqn:Hmax; [|discriminate].
  rewrite bind_run, os_makedirs_run in Hinit. cbn [heap fs figures trace] in Hinit.
  destruct (makedirs out (fs w)) as [files1|e] eqn:H1; [|discriminate].
  rewrite bind_run, os_makedirs_run in Hinit. cbn [heap fs figures trace] in Hinit.
  destruct (makedirs (out +:+ "/" +:+ name) files1) as [files2|e] eqn:H2; [|discriminate].
  rewrite bind_run, os_makedirs_run in Hinit. cbn [heap fs figures trace] in Hinit.
  destruct (makedirs (out +:+ "/" +:+ name +:+ "/" +:+ "frames") files2) as [files3|e] eqn:H3;
    [|discriminate].
  rewrite <- !app_assoc in Hinit. cbn [app] in Hinit.
  bind_inv Hinit. destruct a. bind_inv Hinit. destruct a.
  injection Hinit as <- <-.
  exists d, s, max_index, files1, files2, files3, w0.
  repeat split; try assumption; try reflexivity.
Qed.


End Construction.

(** ** Paths *)

Section Paths.

Local Open Scope string_scope.

Lemma string_app_nil_r (a : string) : a +:+ "" = a.
Proof.
  induction a as [|c a IH]; [reflexivity|]. rewrite string_app_cons. now rewrite IH.
Qed.

Lemma string_existsb_app (f : ascii → bool) (a b : string) :
  string_existsb f (a +:+ b) = string_existsb f a || string_existsb f b.
Proof.
  induction a as [|c a IH]; [reflexivity|].
  rewrite string_app_cons. simpl. rewrite IH. now rewrite orb_assoc.
Qed.

Lemma has_slash_app (a b : string) : has_slash (a +:+ b) = has_slash a || has_slash b.
Proof. apply string_existsb_app. Qed.




Lemma parents_no_slash (b : string) : has_slash b = false → parents b = [].
Proof.
  induction b as [|c b IH]; [reflexivity|].
  unfold has_slash. simpl. intros H. apply orb_false_elim in H as [Hc Hb].
  rewrite Hc. simpl. now rewrite IH.
Qed.

Lemma parents_app (a s : string) :
  parents (a +:+ s) = (parents a ++ ((λ x, a +:+ x) <$> parents s))%list.
Proof.
  induction a as [|c a IH].
  - rewrite string_app_nil_l. cbn [parents app].
    induction (parents s) as [|x l IHl]; [reflexivity|].
    rewrite fmap_cons, <- IHl. reflexivity.
  - rewrite string_app_cons. cbn [parents]. rewrite IH, fmap_app, <- list_fmap_compose.
    now rewrite app_assoc.
Qed.

(** A name without slash lies in the directory it is appended to. *)
Lemma parent_child (d b : string) :
  has_slash b = false → parent (d +:+ "/" +:+ b) = Some d.
Proof.
  intros Hb. unfold parent. rewrite parents_app.
  change ("/" +:+ b) with (String "/" b). cbn [parents].
  rewrite (parents_no_slash b) by assumption.
  change (is_slash "/") with true. cbn [fmap list_fmap app].
  rewrite string_app_nil_r. apply last_snoc.
Qed.

End Paths.

(** The characters of a formatted frame number. *)

Definition is_digit (c : ascii) : bool :=
  (48 <=? N_of_ascii c)%N && (N_of_ascii c <=? 57)%N.

Fixpoint string_forallb (f : ascii → bool) (s : string) : bool :=
  match s with
  | EmptyString => true
  | String c s' => f c && string_forallb f s'
  end.

Lemma string_forallb_app (f : ascii → bool) (a b : string) :
  string_forallb f (a +:+ b) = string_forallb f a && string_forallb f b.
Proof.
  induction a as [|c a IH]; [reflexivity|].
  rewrite string_app_cons. simpl. rewrite IH. now rewrite andb_assoc.
Qed.

Lemma digit_char_is_digit (d : Z) : 0 ≤ d ≤ 9 → is_digit (digit_char d) = true.
Proof.
  intros Hd. unfold is_digit. rewrite digit_char_code by assumption.
  apply andb_true_intro. split; apply N.leb_le; lia.
Qed.

Lemma decimal_digits_digits (fuel : nat) (n : Z) :
  0 ≤ n → string_forallb is_digit (decimal_digits fuel n) = true.
Proof.
  revert n. induction fuel as [|fuel IH]; intros n Hn; [reflexivity|].
  cbn [decimal_digits]. destruct (n <? 10) eqn:Hlt.
  - apply Z.ltb_lt in Hlt. cbn [string_forallb].
    rewrite digit_char_is_digit by lia. reflexivity.
  - rewrite string_forallb_app. cbn [string_forallb].
    rewrite IH by (apply Z.div_pos; lia).
    rewrite digit_char_is_digit; [reflexivity|].
    pose proof (Z.mod_pos_bound n 10). lia.
Qed.

Lemma zeros_digits (k : nat) : string_forallb is_digit (zeros k) = true.
Proof. induction k as [|k IH]; [reflexivity|]. simpl. exact IH. Qed.

Lemma format_09d_digits (n : Z) : 0 ≤ n → string_forallb is_digit (format_09d n) = true.
Proof.
  intros Hn. unfold format_09d. destruct (n <? 0) eqn:Hneg; [apply Z.ltb_lt in Hneg; lia|].
  unfold zero_pad. rewrite string_forallb_app, zeros_digits.
  now apply decimal_digits_digits.
Qed.

Lemma digits_no_slash (s : string) : string_forallb is_digit s = true → has_slash s = false.
Proof.
  induction s as [|c s IH]; [reflexivity|].
  simpl. intros H. apply andb_prop in H as [Hc Hs].
  unfold has_slash. simpl. fold (has_slash s). rewrite IH by assumption.
  rewrite orb_false_r. unfold is_slash. apply Ascii.eqb_neq. intros ->. discriminate.
Qed.




(** ** File-system calls *)

(** [files'] has the entries of [files] and, maybe, more directories. *)
Definition grown (files files' : filesystem) : Prop :=
  ∀ p, files' !! p = files !! p ∨ (files !! p = None ∧ files' !! p = Some Directory).

Lemma grown_refl (files : filesystem) : grown files files.
Proof. intros p. now left. Qed.

Lemma grown_trans (f1 f2 f3 : filesystem) : grown f1 f2 → grown f2 f3 → grown f1 f3.
Proof.
  intros H12 H23 p. destruct (H12 p) as [E12 | [N1 D2]], (H23 p) as [E23 | [N2 D3]].
  - left. congruence.
  - right. split; congruence.
  - right. split; congruence.
  - congruence.
Qed.

Lemma grown_directory (f1 f2 : filesystem) (p : string) :
  grown f1 f2 → f1 !! p = Some Directory → f2 !! p = Some Directory.
Proof. intros H Hp. destruct (H p) as [E | [N _]]; congruence. Qed.

Lemma mkdir_step_ok (leaf : bool) (q : string) (files files' : filesystem) :
  mkdir_step leaf q files = Ok files' → grown files files' ∧ files' !! q = Some Directory.
Proof.
  unfold mkdir_step. destruct (files !! q) as [[|]|] eqn:Hq; intros H; try discriminate.
  - injection H as <-. split; [apply grown_refl | assumption].
  - injection H as <-. split; [|apply lookup_insert_eq].
    intros p. destruct (decide (q = p)) as [<- | Hne].
    + right. split; [assumption | apply lookup_insert_eq].
    + left. now apply lookup_insert_ne.
Qed.


Lemma mkdir_chain_ok (qs : list string) (files files' : filesystem) :
  mkdir_chain qs files = Ok files' →
  grown files files' ∧ ∀ q, q ∈ qs → files' !! q = Some Directory.
Proof.
  revert files. induction qs as [|q qs IH]; intros files H; simpl in H.
  - injection H as <-. split; [apply grown_refl|]. intros q Hq. inversion Hq.
  - destruct (mkdir_step false q files) as [files1|] eqn:Hstep; [|discriminate].
    apply mkdir_step_ok in Hstep as [Hg1 Hq]. apply IH in H as [Hg Hall].
    split; [eapply grown_trans; eassumption|].
    intros q' Hq'. apply elem_of_cons in Hq' as [-> | Hq']; [|auto].
    eapply grown_directory; eassumption.
Qed.


(** What a successful [os.makedirs] leaves. *)
Lemma makedirs_ok (p : string) (files files' : filesystem) :
  makedirs p files = Ok files' →
  p ≠ ""%string ∧ grown files files' ∧ files' !! p = Some Directory ∧
  ∀ q, q ∈ filter (λ q, q ≠ ""%string) (parents p) → files' !! q = Some Directory.
Proof.
  unfold makedirs. destruct (String.eqb p "") eqn:Hp; [discriminate|].
  apply String.eqb_neq in Hp.
  destruct (mkdir_chain _ files) as [files1|] eqn:Hchain; [|discriminate].
  intros Hstep. apply mkdir_chain_ok in Hchain as [Hg1 Hall].
  apply mkdir_step_ok in Hstep as [Hg2 Hdir].
  repeat split; try assumption.
  - eapply grown_trans; eassumption.
  - intros q Hq. eapply grown_directory; eauto.
Qed.


Lemma os_remove_ok (p : string) (files files' : filesystem) :
  os_remove p files = Ok files' → files !! p = Some Regular ∧ files' = delete p files.
Proof.
  unfold os_remove. destruct (files !! p) as [[|]|]; intros H; try discriminate.
  injection H as <-. auto.
Qed.

Lemma write_file_ok (p : string) (files files' : filesystem) :
  write_file p files = Ok files' →
  files !! p ≠ Some Directory ∧ files' = <[p := Regular]> files.
Proof.
  unfold write_file. intros H.
  assert (match files !! p with
          | Some Directory => Raise IsADirectoryError
          | _ => Ok (<[p := Regular]> files)
          end = Ok files') as Hw.
  { destruct (parent p) as [[|c d]|]; try assumption.
    destruct (files !! String c d) as [[|]|]; try discriminate. assumption. }
  destruct (files !! p) as [[|]|]; try discriminate; injection Hw as <-; split; congruence.
Qed.

(** Writing into an existing directory, at a path that is no directory. *)
Lemma write_file_in_dir (d b : string) (files : filesystem) :
  has_slash b = false →
  files !! d = Some Directory →
  files !! (d +:+ "/" +:+ b) ≠ Some Directory →
  write_file (d +:+ "/" +:+ b) files = Ok (<[d +:+ "/" +:+ b := Regular]> files).
Proof.
  intros Hb Hd Hp. unfold write_file. rewrite parent_child by assumption.
  assert (match files !! (d +:+ "/" +:+ b) with
          | Some Directory => Raise IsADirectoryError
          | _ => Ok (<[d +:+ "/" +:+ b := Regular]> files)
          end = Ok (<[d +:+ "/" +:+ b := Regular]> files)) as Hw.
  { destruct (files !! (d +:+ "/" +:+ b)) as [[|]|]; congruence. }
  destruct d; [assumption|]. now rewrite Hd.
Qed.

(** The directories of the two worlds are the same. *)
Definition dirs_same : relation world :=
  λ w w', ∀ p, fs w' !! p = Some Directory ↔ fs w !! p = Some Directory.

#[export] Instance dirs_same_preorder : PreOrder dirs_same.
Proof.
  split.
  - intros w p. reflexivity.
  - intros w1 w2 w3 H12 H23 p. etransitivity; [apply H23 | apply H12].
Qed.

(** The directories of the first world are directories of the second. *)
Definition dirs_kept : relation world :=
  λ w w', ∀ p, fs w !! p = Some Directory → fs w' !! p = Some Directory.

#[export] Instance dirs_kept_preorder : PreOrder dirs_kept.
Proof.
  split.
  - intros w p. auto.
  - intros w1 w2 w3 H12 H23 p Hp. auto.
Qed.

Lemma preserved_run {A} (R : relation world) (m : M A) (w w' : world) (r : result A) :
  preserved R m → m w = (r, w') → R w w'.
Proof. intros Hm Hrun. specialize (Hm w). now rewrite Hrun in Hm. Qed.

Lemma preserved_weaken {A} (R R' : relation world) (m : M A) :
  (∀ w w', R w w' → R' w w') → preserved R m → preserved R' m.
Proof. intros Hsub Hm w. apply Hsub, Hm. Qed.

Lemma same_fs_dirs_same (w w' : world) : same fs w w' → dirs_same w w'.
Proof. unfold same, dirs_same. intros -> p. reflexivity. Qed.

Lemma remove_dirs_same p : preserved dirs_same (fs_apply (os_remove p)).
Proof.
  intros w q. unfold fs_apply. destruct (os_remove p (fs w)) as [files|] eqn:H; [|reflexivity].
  apply os_remove_ok in H as [Hreg ->]. cbn [fs snd].
  destruct (decide (p = q)) as [<- | Hne].
  - rewrite lookup_delete_eq, Hreg. split; discriminate.
  - now rewrite lookup_delete_ne.
Qed.


Lemma fs_call_run (ev : event) (op : filesystem → result filesystem) (w : world) :
  fs_call ev op w =
  match op (fs w) with
  | Ok files => (Ok tt, {| heap := heap w; fs := files; figures := figures w;
                           trace := trace w ++ [ev] |})
  | Raise e => (Raise e, {| heap := heap w; fs := fs w; figures := figures w;
                            trace := trace w ++ [ev] |})
  end.
Proof.
  unfold fs_call. rewrite bind_run. unfold log, fs_apply. cbn [fs heap figures trace].
  now destruct (op (fs w)).
Qed.

(** ** Clearing the frame folder *)

Lemma remove_all_inv (l : list string) (w w' : world) :
  for_each l os_remove_call w = (Ok tt, w') →
  heap w' = heap w ∧ figures w' = figures w ∧ trace w' = trace w ++ (EvRemove <$> l) ∧
  (∀ p, p ∈ l → fs w !! p = Some Regular ∧ fs w' !! p = None) ∧
  (∀ p, p ∉ l → fs w' !! p = fs w !! p).
Proof.
  revert w. induction l as [|q l IH]; intros w H.
  - injection H as <-. rewrite app_nil_r.
    split; [reflexivity|]. split; [reflexivity|]. split; [reflexivity|].
    split; [|reflexivity]. intros p Hp. inversion Hp.
  - cbn [for_each] in H. bind_inv H. destruct a.
    unfold os_remove_call in E. rewrite fs_call_run in E.
    destruct (os_remove q (fs w)) as [files|] eqn:Hrm; [|discriminate].
    injection E as <-. apply os_remove_ok in Hrm as [Hreg ->].
    apply IH in H as (Hheap & Hfig & Htrace & Hin & Hout). cbn [heap fs figures trace] in *.
    split; [assumption|]. split; [assumption|]. split.
    { rewrite Htrace, fmap_cons, <- app_assoc. reflexivity. }
    split.
    + intros p Hp. destruct (decide (p ∈ l)) as [Hl | Hl].
      * destruct (Hin p Hl) as [Hr Hn]. split; [|assumption].
        destruct (decide (q = p)) as [<- | Hne];
          [now rewrite lookup_delete_eq in Hr | now rewrite lookup_delete_ne in Hr].
      * apply elem_of_cons in Hp as [-> | Hp]; [|contradiction].
        split; [assumption|]. rewrite Hout by assumption. apply lookup_delete_eq.
    + intros p Hp. apply not_elem_of_cons in Hp as [Hne Hl].
      rewrite Hout by assumption. now apply lookup_delete_ne.
Qed.

Lemma remove_all_ok (l : list string) (w : world) :
  NoDup l → (∀ p, p ∈ l → fs w !! p = Some Regular) →
  ∃ w', for_each l os_remove_call w = (Ok tt, w').
Proof.
  revert w. induction l as [|q l IH]; intros w Hnd Hreg.
  - eexists. reflexivity.
  - cbn [for_each]. rewrite bind_run. unfold os_remove_call at 1. rewrite fs_call_run.
    unfold os_remove. rewrite (Hreg q) by left.
    apply NoDup_cons in Hnd as [Hq Hnd]. apply IH; [assumption|].
    intros p Hp. cbn [fs]. rewrite lookup_delete_ne by (intros ->; contradiction).
    apply Hreg. now right.
Qed.

Section Clearing.

Variable host : platform.

(** The paths [glob] returns for a directory without wildcard characters. *)
Definition png_files (dir : string) (files : filesystem) : list string :=
  match files !! dir with
  | Some Directory => filter (λ p, png_in dir p) (elements (dom files))
  | _ => []
  end.

Lemma glob_png_run (dir : string) (w : world) :
  has_magic dir = false → glob_png host dir w = (Ok (png_files dir (fs w)), w).
Proof. intros H. unfold glob_png, png_files. now rewrite H. Qed.

Lemma png_files_NoDup (dir : string) (files : filesystem) : NoDup (png_files dir files).
Proof.
  unfold png_files. destruct (files !! dir) as [[|]|]; try apply NoDup_nil_2.
  apply NoDup_filter, NoDup_elements.
Qed.

Lemma elem_of_png_files (dir p : string) (files : filesystem) :
  files !! dir = Some Directory →
  p ∈ png_files dir files ↔ png_in dir p = true ∧ is_Some (files !! p).
Proof.
  intros Hdir. unfold png_files. rewrite Hdir, list_elem_of_filter, elem_of_elements, elem_of_dom.
  rewrite Is_true_true. reflexivity.
Qed.

Lemma png_files_matching (dir p : string) (files : filesystem) :
  p ∈ png_files dir files → png_in dir p = true ∧ is_Some (files !! p).
Proof.
  intros H. destruct (files !! dir) as [[|]|] eqn:Hdir.
  - now apply (elem_of_png_files dir p files Hdir).
  - unfold png_files in H. rewrite Hdir in H. inversion H.
  - unfold png_files in H. rewrite Hdir in H. inversion H.
Qed.

(** Whatever the pattern expands to: only [os.remove] is called, only
    regular files go, dictionaries and figures stay. *)
Lemma clear_frame_folder_inv (self : VideoGenerator) (w w' : world) :
  clear_frame_folder host self w = (Ok tt, w') →
  heap w' = heap w ∧ figures w' = figures w ∧
  (∃ removed, trace w' = trace w ++ (EvRemove <$> removed)) ∧
  (∀ p, fs w' !! p = fs w !! p ∨ (fs w !! p = Some Regular ∧ fs w' !! p = None)).
Proof.
  unfold clear_frame_folder. intros H. bind_inv H.
  assert (w0 = w) as -> by (unfold glob_png in E; now injection E).
  apply remove_all_inv in H as (Hheap & Hfig & Htrace & Hin & Hout).
  repeat split; try assumption; [eauto|].
  intros p. destruct (decide (p ∈ a)) as [Hp | Hp]; [right; auto | left; auto].
Qed.

(** With a literal frame path, every file matching [frames/*.png] is gone
    afterwards, and nothing else is. *)
Lemma clear_frame_folder_literal (self : VideoGenerator) (w w' : world) :
  has_magic (frame_path self) = false →
  clear_frame_folder host self w = (Ok tt, w') →
  (∀ p, png_in (frame_path self) p = false → fs w' !! p = fs w !! p) ∧
  (fs w !! frame_path self = Some Directory →
   ∀ p, png_in (frame_path self) p = true → fs w' !! p = None).
Proof.
  intros Hmagic H. unfold clear_frame_folder in H. bind_inv H.
  rewrite glob_png_run in E by assumption. injection E as <- <-.
  apply remove_all_inv in H as (_ & _ & _ & Hin & Hout). split.
  - intros p Hp. apply Hout. intros Hel. apply png_files_matching in Hel as [Hm _]. congruence.
  - intros Hdir p Hp. destruct (fs w !! p) as [k|] eqn:Hk.
    + apply Hin. apply elem_of_png_files; [assumption|]. rewrite Hk. eauto.
    + rewrite Hout; [assumption|]. intros Hel.
      apply png_files_matching in Hel as [_ [k Hk']]. congruence.
Qed.

(** With a literal frame path, clearing succeeds as soon as no directory
    matches [frames/*.png]. *)
Lemma clear_frame_folder_ok (self : VideoGenerator) (w : world) :
  has_magic (frame_path self) = false →
  (∀ p, png_in (frame_path self) p = true → fs w !! p ≠ Some Directory) →
  ∃ w', clear_frame_folder host self w = (Ok tt, w').
Proof.
  intros Hmagic Hnodir. unfold clear_frame_folder. rewrite bind_run, glob_png_run by assumption.
  apply remove_all_ok; [apply png_files_NoDup|].
  intros p Hp. apply png_files_matching in Hp as [Hm [k Hk]].
  destruct k; [|assumption]. now apply Hnodir in Hm.
Qed.

Lemma clear_frame_folder_dirs_same (self : VideoGenerator) :
  preserved dirs_same (clear_frame_folder host self).
Proof.
  unfold clear_frame_folder. apply preserved_bind; [apply _ | apply glob_png_preserved, _ |].
  intros l. apply preserved_for_each; [apply _|]. intros p.
  unfold os_remove_call, fs_call. apply preserved_bind; [apply _ | | intros _; apply remove_dirs_same].
  apply (preserved_weaken (same fs)); [apply same_fs_dirs_same | apply log_fs].
Qed.

End Clearing.

(** ** Saving figures *)

(** [generate_palette] writes the palette preview and leaves the figures
    as they were. *)
Lemma generate_palette_run (self : VideoGenerator) (w : world) :
  match write_file (run_dir self +:+ "/generated_palette.png") (fs w) with
  | Ok files =>
      generate_palette self w =
      (Ok tt, {| heap := heap w; fs := files; figures := figures w;
                 trace := trace w ++ [EvSavefig (run_dir self +:+ "/generated_palette.png")] |})
  | Raise e => ∃ w', generate_palette self w = (Raise e, w')
  end.
Proof.
  unfold generate_palette, plt_savefig, fs_call, plt_figure, plt_imshow, plt_axis_off,
    plt_tight_layout, plt_close, on_current, with_figures, log, fs_apply.
  unfold mbind, M_bind. cbn [heap fs figures trace].
  destruct (write_file _ (fs w)) as [files|e]; [reflexivity | eauto].
Qed.

(** [print_frame] writes the frame file named after the counter, adds one
    to the counter and closes the current figure. *)
Lemma print_frame_run (self : VideoGenerator) (w : world) :
  match write_file (frame_file self (frame_count self)) (fs w) with
  | Ok files =>
      print_frame self w =
      (Ok (set_frame_count self (frame_count self + 1)),
       {| heap := heap w; fs := files; figures := drop 1 (figures w);
          trace := trace w ++ [EvSavefig (frame_file self (frame_count self))] |})
  | Raise e => ∃ w', print_frame self w = (Raise e, w')
  end.
Proof.
  unfold print_frame, plt_savefig, fs_call, plt_tight_layout, plt_close, on_current,
    with_figures, log, fs_apply.
  unfold mbind, M_bind. cbn [heap fs figures trace].
  destruct (write_file _ (fs w)) as [files|e]; [|eauto].
  destruct (figures w); reflexivity.
Qed.

Section Methods.

Variable host : platform.

(** The two encoder calls, when [ffmpeg] is found: the exit statuses go to
    the trace and nowhere else. *)
Lemma print_video_run (self : VideoGenerator) (framerate : Z) (clear_frames : bool)
    (w : world) (run : list string → filesystem → Z * filesystem) :
  executable host "ffmpeg" = Some run →
  print_video host self framerate clear_frames w =
  let encoded :=
    {| heap := heap w;
       fs := (run (paletteuse_args self framerate)
                (run (palettegen_args self) (fs w)).2).2;
       figures := figures w;
       trace := trace w ++
         [EvCall (palettegen_args self) (Some (run (palettegen_args self) (fs w)).1);
          EvCall (paletteuse_args self framerate)
            (Some (run (paletteuse_args self framerate)
                     (run (palettegen_args self) (fs w)).2).1)] |} in
  if clear_frames then clear_frame_folder host self encoded else (Ok tt, encoded).
Proof.
  intros Hrun. unfold print_video, subprocess_call, mbind, M_bind.
  change (hd "" (palettegen_args self)) with "ffmpeg".
  change (hd "" (paletteuse_args self framerate)) with "ffmpeg".
  rewrite Hrun.
  destruct (run (palettegen_args self) (fs w)) as [s1 files1].
  cbn [fst snd heap fs figures trace].
  destruct (run (paletteuse_args self framerate) files1) as [s2 files2]. cbn [fst snd].
  rewrite <- app_assoc. cbn [app]. now destruct clear_frames.
Qed.

(** Without [ffmpeg], the first call raises and nothing else is done. *)
Lemma print_video_no_encoder (self : VideoGenerator) (framerate : Z) (clear_frames : bool)
    (w : world) :
  executable host "ffmpeg" = None →
  print_video host self framerate clear_frames w =
  (Raise FileNotFoundError,
   {| heap := heap w; fs := fs w; figures := figures w;
      trace := trace w ++ [EvCall (palettegen_args self) None] |}).
Proof.
  intros Hrun. unfold print_video, subprocess_call, mbind, M_bind.
  change (hd "" (palettegen_args self)) with "ffmpeg". now rewrite Hrun.
Qed.

(** The instance a method call leaves: only [print_frame] changes it, and
    only its counter. *)
Lemma call_self (self self' : VideoGenerator) (m : method) (w w' : world) :
  call host self m w = (Ok self', w') →
  self' = if is_print_frame m then set_frame_count self (frame_count self + 1) else self.
Proof.
  destruct m; cbn [call is_print_frame]; intros H;
    try (bind_inv H; now injection H as <- _).
  pose proof (print_frame_run self w) as Hrun.
  destruct (write_file _ (fs w)).
  - rewrite Hrun in H. now injection H as <- _.
  - destruct Hrun as [w'' Hrun]. congruence.
Qed.

Lemma set_frame_count_id (self : VideoGenerator) :
  set_frame_count self (frame_count self) = self.
Proof. now destruct self. Qed.

Lemma set_frame_count_twice (self : VideoGenerator) (a b : Z) :
  set_frame_count (set_frame_count self a) b = set_frame_count self b.
Proof. reflexivity. Qed.

Lemma persist_calls_cons (m : method) (ms : list method) :
  persist_calls (m :: ms) = (if is_print_frame m then 1 else 0) + persist_calls ms.
Proof.
  unfold persist_calls. rewrite filter_cons. destruct (is_print_frame m) eqn:Hm.
  - rewrite decide_True by (now apply Is_true_true). cbn [length]. lia.
  - rewrite decide_False by (rewrite Is_true_true; congruence). lia.
Qed.

Lemma calls_self (ms : list method) (self self' : VideoGenerator) (w w' : world) :
  calls host self ms w = (Ok self', w') →
  self' = set_frame_count self (frame_count self + persist_calls ms).
Proof.
  revert self w. induction ms as [|m ms IH]; intros self w H.
  - injection H as <- _. change (persist_calls []) with 0.
    now rewrite Z.add_0_r, set_frame_count_id.
  - cbn [calls] in H. bind_inv H. apply call_self in E. apply IH in H. subst.
    rewrite persist_calls_cons. destruct (is_print_frame m).
    + rewrite set_frame_count_twice. cbn [frame_count set_frame_count]. f_equal; lia.
    + f_equal; lia.
Qed.


End Methods.

(** ** Construction, whatever its outcome *)

Section Outcome.

Variable host : platform.

(** The part of [__init__] after the colour table: lines 29-37. *)
Definition prepare_output (self : VideoGenerator) : M VideoGenerator :=
  os_makedirs (output_folder self) ;;
  os_makedirs (output_folder self +:+ "/" +:+ name self) ;;
  os_makedirs (output_folder self +:+ "/" +:+ name self +:+ "/" +:+ "frames") ;;
  clear_frame_folder host self ;;
  generate_palette self ;;
  mret self.

(** [__init__] in three stages: the normalisation loop, the colour table,
    the output directories. *)
Lemma init_stages (name : string) (cs : loc) (out : string) (w : world) (d : dict) :
  heap w !! cs = Some d →
  let own := fresh (dom (heap w)) in
  own ≠ cs ∧
  match normalise_items d [] with
  | Raise e =>
      ∃ partial, init host name cs out w = (Raise e, set_heap w (<[own := partial]> (heap w)))
  | Ok s =>
      match py_max (dict_keys s) with
      | Raise e => init host name cs out w = (Raise e, set_heap w (<[own := s]> (heap w)))
      | Ok max_index =>
          init host name cs out w =
          prepare_output (built name out own s max_index)
            (set_heap w (<[own := s]> (heap w)))
      end
  end.
Proof.
  intros Hcs own.
  assert (own ≠ cs) as Hne.
  { intros Heq. pose proof (is_fresh (dom (heap w))) as Hfresh. fold own in Hfresh.
    apply Hfresh. rewrite Heq. apply elem_of_dom. eauto. }
  split; [assumption|].
  remember (init host name cs out w) as r eqn:Hr.
  unfold init in Hr. rewrite bind_run in Hr. unfold new_dict in Hr. fold own in Hr.
  rewrite bind_run in Hr. unfold dict_read at 1 in Hr. cbn [heap] in Hr.
  rewrite lookup_insert_ne, Hcs in Hr by assumption.
  rewrite bind_run in Hr.
  match type of Hr with context [for_each d _ ?w0] =>
    destruct (normalise_loop_run own d [] w0) as (acc & Hloop & Hs);
      [apply lookup_insert_eq|] end.
  rewrite Hloop in Hr. clear Hloop. unfold set_heap in *. cbn [heap fs figures trace] in Hr.
  rewrite insert_insert_eq in Hr.
  destruct (normalise_items d []) as [s|e] eqn:Hnorm; [|eauto].
  specialize (Hs s eq_refl). subst acc.
  rewrite bind_run in Hr. unfold dict_read at 1 in Hr. cbn [heap] in Hr.
  rewrite lookup_insert_eq in Hr.
  rewrite bind_run, (create_colormap_run _ s) in Hr by apply lookup_insert_eq.
  destruct (py_max (dict_keys s)) as [max_index|e] eqn:Hmax; exact Hr.
Qed.

(** The exceptions a program can raise. *)
Definition raises_only {A} (allowed : exn → Prop) (m : M A) : Prop :=
  ∀ w e w', m w = (Raise e, w') → allowed e.

Lemma raises_only_bind {A B} (allowed : exn → Prop) (m : M A) (f : A → M B) :
  raises_only allowed m → (∀ a, raises_only allowed (f a)) →
  raises_only allowed (m ≫= f).
Proof.
  intros Hm Hf w e w' H. rewrite bind_run in H.
  destruct (m w) as [[a|e1] w1] eqn:E.
  - eapply Hf; eassumption.
  - injection H as <- <-. eapply Hm; eassumption.
Qed.

Lemma raises_only_ret {A} (allowed : exn → Prop) (a : A) : raises_only allowed (mret a).
Proof. intros w e w' H. discriminate. Qed.

Lemma raises_only_for_each {A} (allowed : exn → Prop) (l : list A) (body : A → M unit) :
  (∀ x, raises_only allowed (body x)) → raises_only allowed (for_each l body).
Proof.
  intros Hbody. induction l as [|x l IH]; cbn [for_each].
  - apply raises_only_ret.
  - apply raises_only_bind; auto.
Qed.

(** The errors of the file system. *)
Definition is_os_error (e : exn) : Prop :=
  e = FileExistsError ∨ e = NotADirectoryError ∨ e = IsADirectoryError ∨
  e = FileNotFoundError.

Lemma fs_call_raises (ev : event) (op : filesystem → result filesystem) :
  (∀ files e, op files = Raise e → is_os_error e) →
  raises_only is_os_error (fs_call ev op).
Proof.
  intros Hop w e w' H. rewrite fs_call_run in H.
  destruct (op (fs w)) eqn:E; [discriminate|]. injection H as <- _. eauto.
Qed.

Lemma makedirs_raises (p : string) (files : filesystem) (e : exn) :
  makedirs p files = Raise e → is_os_error e.
Proof.
  unfold makedirs, is_os_error. destruct (String.eqb p ""); [intros [= <-]; auto|].
  assert (∀ leaf q f e', mkdir_step leaf q f = Raise e' → is_os_error e') as Hstep.
  { intros leaf q f e'. unfold mkdir_step, is_os_error.
    destruct (f !! q) as [[|]|]; try discriminate. destruct leaf; intros [= <-]; auto. }
  assert (∀ qs f e', mkdir_chain qs f = Raise e' → is_os_error e') as Hchain.
  { induction qs as [|q qs IH]; intros f e'; simpl; [discriminate|].
    destruct (mkdir_step false q f) eqn:E; [apply IH|]. intros [= <-]. eapply Hstep, E. }
  destruct (mkdir_chain _ files) eqn:E; [apply Hstep|]. intros [= <-]. eapply Hchain, E.
Qed.

Lemma os_remove_raises (p : string) (files : filesystem) (e : exn) :
  os_remove p files = Raise e → is_os_error e.
Proof.
  unfold os_remove, is_os_error. destruct (files !! p) as [[|]|]; intros [= <-]; auto.
Qed.

Lemma write_file_raises (p : string) (files : filesystem) (e : exn) :
  write_file p files = Raise e → is_os_error e.
Proof.
  unfold write_file. intros H.
  assert (∀ e0, match files !! p with
                | Some Directory => Raise IsADirectoryError
                | _ => Ok (<[p := Regular]> files)
                end = Raise e0 → is_os_error e0) as Hw.
  { unfold is_os_error. intros e0. destruct (files !! p) as [[|]|]; try discriminate.
    intros [= <-]. auto. }
  destruct (parent p) as [[|c d]|]; try (now apply Hw).
  destruct (files !! String c d) as [[|]|]; try (now apply Hw);
    injection H as <-; unfold is_os_error; auto.
Qed.

Lemma with_figures_raises f : raises_only is_os_error (with_figures f).
Proof. intros w e w' H. discriminate. Qed.

Lemma prepare_output_raises (self : VideoGenerator) :
  raises_only is_os_error (prepare_output self).
Proof.
  unfold prepare_output, os_makedirs, clear_frame_folder, generate_palette, plt_savefig,
    os_remove_call, plt_figure, plt_imshow, plt_axis_off, plt_tight_layout, plt_close,
    on_current.
  repeat first
    [ apply fs_call_raises; first [apply makedirs_raises | apply os_remove_raises
                                  | apply write_file_raises]
    | apply with_figures_raises
    | apply raises_only_ret
    | apply raises_only_for_each; intros ?
    | apply raises_only_bind; [|intros ?] ].
  intros w e w' H. discriminate.
Qed.

Lemma tuple_div_255_raises (items : list pyval) (e : exn) :
  tuple_div_255 items = Raise e → e = TypeError_truediv ∨ e = OverflowError_truediv.
Proof.
  induction items as [|v items IH]; simpl; [discriminate|].
  destruct (truediv_255 v) as [v'|e'] eqn:Hv.
  - destruct (tuple_div_255 items); [discriminate|]. intros [= <-]. auto.
  - intros [= <-]. unfold truediv_255 in Hv. destruct v; try (injection Hv as <-; auto).
    + unfold int_truediv_255 in Hv. destruct (z =? 0); [discriminate|].
      match type of Hv with context [if ?c then _ else _] => destruct c end;
        [injection Hv as <-; auto | discriminate].
    + discriminate.
Qed.

Lemma normalise_items_raises (items acc : dict) (e : exn) :
  normalise_items items acc = Raise e → e = TypeError_truediv ∨ e = OverflowError_truediv.
Proof.
  revert acc. induction items as [|[k v] items IH]; intros acc; simpl; [discriminate|].
  destruct (normalised_value v) as [v'|e'] eqn:Hv; [apply IH|].
  intros [= <-]. unfold normalised_value in Hv. destruct v; try discriminate.
  destruct (tuple_div_255 items0) eqn:Ht; [discriminate|].
  injection Hv as <-. eapply tuple_div_255_raises, Ht.
Qed.

End Outcome.

(** ** Dictionaries and the colour table *)

Lemma dict_set_fresh (d : dict) (k : Z) (v : pyval) :
  k ∉ d.*1 → dict_set d k v = d ++ [(k, v)].
Proof.
  induction d as [|[k' v'] d IH]; intros Hk; [reflexivity|].
  cbn [fmap list_fmap fst] in Hk. apply not_elem_of_cons in Hk as [Hne Hk].
  cbn [dict_set]. destruct (k' =? k) eqn:E; [apply Z.eqb_eq in E; congruence|].
  cbn [app]. now rewrite IH.
Qed.

(** Entry by entry, [s] holds the normalised values of [d], in the order
    of [d]. *)
Definition normalised_entries (d s : dict) : Prop :=
  Forall2 (λ item item', item.1 = item'.1 ∧ normalised_value item.2 = Ok item'.2) d s.

Lemma normalise_items_entries (d acc s : dict) :
  normalise_items d acc = Ok s → NoDup (acc.*1 ++ d.*1) →
  ∃ t, s = acc ++ t ∧ normalised_entries d t.
Proof.
  revert acc. induction d as [|[k v] d IH]; intros acc Hs Hnd; simpl in Hs.
  - injection Hs as <-. exists []. rewrite app_nil_r. split; [reflexivity | constructor].
  - destruct (normalised_value v) as [v'|] eqn:Hv; [|discriminate].
    cbn [fmap list_fmap fst] in Hnd.
    assert (k ∉ acc.*1) as Hk.
    { apply NoDup_app in Hnd as (_ & Hdisj & _). intros Hin. apply (Hdisj k Hin). left. }
    rewrite dict_set_fresh in Hs by assumption.
    apply IH in Hs as (t & -> & Ht).
    + exists ((k, v') :: t). rewrite <- app_assoc. split; [reflexivity|].
      constructor; [split; [reflexivity | exact Hv] | assumption].
    + rewrite fmap_app, <- app_assoc. exact Hnd.
Qed.

Lemma normalised_entries_keys (d s : dict) :
  normalised_entries d s → dict_keys s = dict_keys d.
Proof.
  unfold dict_keys. induction 1 as [|[k v] [k' v'] d s [Hk _] _ IH]; [reflexivity|].
  cbn in *. now rewrite IH, Hk.
Qed.



Lemma foldl_max_spec (l : list Z) (x : Z) :
  let m := foldl Z.max x l in
  m ∈ x :: l ∧ ∀ k, k ∈ x :: l → k ≤ m.
Proof.
  revert x. induction l as [|y l IH]; intros x; cbn [foldl].
  - split; [left|]. intros k Hk. apply list_elem_of_singleton in Hk. lia.
  - destruct (IH (Z.max x y)) as [Hin Hmax]. split.
    + apply elem_of_cons in Hin as [Heq | Hin]; [|right; now right].
      rewrite Heq. destruct (Z.max_spec x y) as [[_ ->] | [_ ->]]; [right; left | left].
    + intros k Hk. apply elem_of_cons in Hk as [-> | Hk].
      * etransitivity; [apply (Z.le_max_l _ y) | apply Hmax; left].
      * apply elem_of_cons in Hk as [-> | Hk].
        -- etransitivity; [apply (Z.le_max_r x) | apply Hmax; left].
        -- apply Hmax. now right.
Qed.

(** [max()] returns the largest element, and raises on nothing but an
    empty list. *)
Lemma py_max_spec (l : list Z) (m : Z) :
  py_max l = Ok m → m ∈ l ∧ ∀ k, k ∈ l → k ≤ m.
Proof.
  destruct l as [|x l]; [discriminate|]. intros [= <-]. apply foldl_max_spec.
Qed.

Lemma py_range_lookup (n i : Z) :
  0 ≤ i → i < n → py_range n !! Z.to_nat i = Some i.
Proof.
  intros Hi Hn. unfold py_range. rewrite list_lookup_fmap, lookup_seq_lt by lia.
  cbn. f_equal. lia.
Qed.

Lemma py_range_length (n : Z) : length (py_range n) = Z.to_nat n.
Proof. unfold py_range. now rewrite length_fmap, length_seq. Qed.

Lemma colour_table_length (d : dict) (max_index : Z) :
  length (colour_table d max_index) = Z.to_nat (max_index + 1).
Proof. unfold colour_table. now rewrite length_fmap, py_range_length. Qed.

Lemma colour_table_lookup (d : dict) (max_index i : Z) :
  0 ≤ i → i ≤ max_index →
  colour_table d max_index !! Z.to_nat i = Some (default black (dict_get d i)).
Proof.
  intros Hi Hmax. unfold colour_table.
  rewrite list_lookup_fmap, py_range_lookup by lia. reflexivity.
Qed.

(** ** Division of a colour component *)





(** ** The constructed instance *)

Section Instance.

Variable host : platform.

Lemma prepare_output_heap (self : VideoGenerator) :
  preserved (same heap) (prepare_output host self).
Proof.
  unfold prepare_output, os_makedirs, clear_frame_folder, generate_palette, plt_savefig,
    os_remove_call, fs_call, plt_figure, plt_imshow, plt_axis_off, plt_tight_layout,
    plt_close, on_current.
  pose proof (glob_png_preserved host (same heap)). frame.
Qed.

Lemma prepare_output_self (self self' : VideoGenerator) (w w' : world) :
  prepare_output host self w = (Ok self', w') → self' = self.
Proof.
  unfold prepare_output. intros H. repeat (bind_inv H; clear E). now injection H as <- _.
Qed.

(** A successful construction from the dictionary [d]: the instance holds a
    new dictionary with the normalised entries, and the colour table built
    from it. *)
Lemma init_ok (name : string) (cs : loc) (out : string) (w w1 : world) (d : dict)
    (self : VideoGenerator) :
  heap w !! cs = Some d →
  init host name cs out w = (Ok self, w1) →
  ∃ s max_index,
    normalise_items d [] = Ok s ∧
    py_max (dict_keys s) = Ok max_index ∧
    self = built name out (fresh (dom (heap w))) s max_index ∧
    heap w1 = <[fresh (dom (heap w)) := s]> (heap w) ∧
    fresh (dom (heap w)) ≠ cs.
Proof.
  intros Hcs Hinit. destruct (init_stages host name cs out w d Hcs) as [Hne Hstages].
  destruct (normalise_items d []) as [s|e] eqn:Hnorm;
    [|destruct Hstages as [? Hr]; congruence].
  destruct (py_max (dict_keys s)) as [max_index|e] eqn:Hmax; [|congruence].
  rewrite Hstages in Hinit. exists s, max_index.
  pose proof (prepare_output_self _ _ _ _ Hinit) as ->.
  pose proof (prepare_output_heap (built name out (fresh (dom (heap w))) s max_index)
                (set_heap w (<[fresh (dom (heap w)) := s]> (heap w)))) as Hheap.
  rewrite Hinit in Hheap. unfold same in Hheap. cbn in Hheap.
  repeat split; auto.
Qed.

End Instance.

(** * The claims *)


Lemma dict_get_key (d : dict) (k : Z) (v : pyval) : dict_get d k = Some v → k ∈ dict_keys d.
Proof.
  unfold dict_keys. induction d as [|[k' v'] d IH]; [discriminate|].
  cbn [dict_get fmap list_fmap fst]. destruct (k' =? k) eqn:E.
  - apply Z.eqb_eq in E. subst. intros _. left.
  - intros H. right. auto.
Qed.

(** C3. After construction from a colour scheme with non-negative keys, the
    colour table has [max key + 1] entries; index [i] holds the normalised
    colour stored under key [i] when there is one, and black otherwise; no
    later method call changes the table. *)
Theorem colour_table_dense (host : platform) (name : string) (cs : loc) (out : string)
    (w w1 w2 : world) (d : dict) (self self' : VideoGenerator) (ms : list method) :
  heap w !! cs = Some d →
  NoDup (dict_keys d) →
  Forall (λ k, 0 ≤ k) (dict_keys d) →
  init host name cs out w = (Ok self, w1) →
  calls host self ms w1 = (Ok self', w2) →
  ∃ s max_key,
    heap w1 !! colour_scheme self = Some s ∧
    normalised_entries d s ∧
    max_key ∈ dict_keys d ∧ (∀ k, k ∈ dict_keys d → k ≤ max_key) ∧
    Z.of_nat (length (cmap self)) = max_key + 1 ∧
    (∀ i colour, dict_get s i = Some colour → cmap self !! Z.to_nat i = Some colour) ∧
    (∀ i, 0 ≤ i ≤ max_key → dict_get s i = None → cmap self !! Z.to_nat i = Some black) ∧
    cmap self' = cmap self.
Proof.
  intros Hcs Hnd Hpos Hinit Hcalls.
  destruct (init_ok host name cs out w w1 d self Hcs Hinit)
    as (s & max_key & Hnorm & Hmax & -> & Hheap & _).
  apply normalise_items_entries in Hnorm as (t & -> & Hentries); [|exact Hnd].
  cbn [app] in *. pose proof (normalised_entries_keys _ _ Hentries) as Hkeys.
  apply py_max_spec in Hmax as [Hin Hle]. rewrite Hkeys in Hin, Hle.
  assert (0 ≤ max_key) as Hmax0 by (rewrite Forall_forall in Hpos; auto).
  exists t, max_key. cbn [colour_scheme cmap built].
  rewrite Hheap, lookup_insert_eq, colour_table_length.
  repeat split; try assumption; try reflexivity.
  - lia.
  - intros i colour Hget.
    assert (i ∈ dict_keys d) as Hi by (rewrite <- Hkeys; eapply dict_get_key; eassumption).
    rewrite colour_table_lookup, Hget; [reflexivity | | auto].
    rewrite Forall_forall in Hpos. auto.
  - intros i [Hi0 Hi] Hget. rewrite colour_table_lookup, Hget by assumption. reflexivity.
  - apply calls_self in Hcalls. now subst self'.
Qed.

(** C4. The frame counter is 1 after construction; every call of
    [print_frame] adds exactly one to it and no other method changes it, so
    after any sequence of calls it is one more than the number of
    [print_frame] calls. *)
Theorem frame_counter_counts_persists (host : platform) (name : string) (cs : loc)
    (out : string) (w w1 w2 : world) (self self' : VideoGenerator) (ms : list method) :
  init host name cs out w = (Ok self, w1) →
  calls host self ms w1 = (Ok self', w2) →
  frame_count self = 1 ∧
  frame_count self' = 1 + persist_calls ms ∧
  (∀ m before after wa wb, call host before m wa = (Ok after, wb) →
     frame_count after = frame_count before + (if is_print_frame m then 1 else 0)).
Proof.
  intros Hinit Hcalls.
  apply init_inv in Hinit as (d & s & mx & f1 & f2 & f3 & wc & _ & _ & _ & -> & _).
  apply calls_self in Hcalls. subst self'. cbn [frame_count set_frame_count built].
  repeat split.
  intros m before after wa wb Hcall. apply call_self in Hcall. subst after.
  destruct (is_print_frame m); cbn [frame_count set_frame_count]; lia.
Qed.

(** C9. Construction from an empty colour scheme raises the [ValueError] of
    [max()] on an empty sequence, from [create_colormap], before any
    directory is made or file written; construction from a colour scheme
    with an entry never raises it. *)
Theorem empty_scheme_raises_max_error (host : platform) (name : string) (cs : loc)
    (out : string) (w : world) (d : dict) :
  heap w !! cs = Some d →
  ((init host name cs out w).1 = Raise ValueError_max_empty ↔ d = []) ∧
  (d = [] →
     (init host name cs out w).2 = set_heap w (<[fresh (dom (heap w)) := []]> (heap w))) ∧
  (∀ self w0 stored, heap w0 !! colour_scheme self = Some stored →
     (stored = [] → create_colormap self w0 = (Raise ValueError_max_empty, w0)) ∧
     (stored ≠ [] → is_ok (create_colormap self w0).1 = true)).
Proof.
  intros Hcs. destruct (init_stages host name cs out w d Hcs) as [Hne Hstages].
  split; [split|split].
  - intros Hraise. destruct (normalise_items d []) as [s|e] eqn:Hnorm.
    + destruct (py_max (dict_keys s)) as [mx|e] eqn:Hmax.
      * rewrite Hstages in Hraise.
        destruct (prepare_output host _ _) as [[self'|e] w'] eqn:Hprep; [discriminate|].
        apply prepare_output_raises in Hprep. cbn in Hraise. injection Hraise as ->.
        destruct Hprep as [? | [? | [? | ?]]]; discriminate.
      * destruct d as [|item d]; [reflexivity|]. exfalso.
        apply normalise_items_not_nil in Hnorm; [|left; discriminate].
        destruct s; [congruence | discriminate].
    + destruct Hstages as [partial Hr]. rewrite Hr in Hraise. cbn in Hraise.
      injection Hraise as ->. apply normalise_items_raises in Hnorm as [?|?]; discriminate.
  - intros ->. cbn in Hstages. now rewrite Hstages.
  - intros ->. cbn in Hstages. now rewrite Hstages.
  - intros self w0 stored Hstored. rewrite (create_colormap_run self stored) by assumption.
    split.
    + now intros ->.
    + intros Hne'. destruct stored as [|[k v] stored]; [congruence | reflexivity].
Qed.

(** C10. Construction writes its normalised colours into a dictionary that
    did not exist before; the caller's dictionary holds the same entries
    after construction, whatever its outcome, and after any further method
    calls. *)
Theorem caller_scheme_never_mutated (host : platform) (name : string) (cs : loc)
    (out : string) (w : world) (d : dict) :
  heap w !! cs = Some d →
  heap (init host name cs out w).2 !! cs = Some d ∧
  (∀ self w1 ms, init host name cs out w = (Ok self, w1) →
     heap w !! colour_scheme self = None ∧
     colour_scheme self ≠ cs ∧
     heap (calls host self ms w1).2 !! cs = Some d).
Proof.
  intros Hcs. destruct (init_stages host name cs out w d Hcs) as [Hne Hstages].
  assert (heap (init host name cs out w).2 !! cs = Some d) as Hafter.
  { destruct (normalise_items d []) as [s|e].
    - destruct (py_max (dict_keys s)) as [mx|e].
      + rewrite Hstages. rewrite (prepare_output_heap host _ _). cbn [heap set_heap].
        now rewrite lookup_insert_ne.
      + rewrite Hstages. cbn [snd heap set_heap]. now rewrite lookup_insert_ne.
    - destruct Hstages as [partial ->]. cbn [snd heap set_heap]. now rewrite lookup_insert_ne. }
  split; [assumption|].
  intros self w1 ms Hinit.
  destruct (init_ok host name cs out w w1 d self Hcs Hinit) as (s & mx & _ & _ & -> & _ & _).
  cbn [colour_scheme built]. repeat split.
  - apply not_elem_of_dom, is_fresh.
  - assumption.
  - rewrite (calls_heap host _ ms w1). rewrite Hinit in Hafter. exact Hafter.
Qed.

(** ** The output folders after construction *)


Lemma generate_palette_inv (self : VideoGenerator) (w w' : world) :
  generate_palette self w = (Ok tt, w') →
  ∃ files, write_file (run_dir self +:+ "/generated_palette.png") (fs w) = Ok files ∧
    w' = {| heap := heap w; fs := files; figures := figures w;
            trace := trace w ++ [EvSavefig (run_dir self +:+ "/generated_palette.png")] |}.
Proof.
  intros H. pose proof (generate_palette_run self w) as Hrun.
  destruct (write_file _ (fs w)) as [files|e].
  - exists files. split; [reflexivity | congruence].
  - destruct Hrun as [w'' Hrun]. congruence.
Qed.

Section Folders.

Variable host : platform.



End Folders.


(** ** Frame files *)

Lemma frame_file_split (self : VideoGenerator) (count : Z) :
  frame_file self count = (frame_path self +:+ "/") +:+ (format_09d count +:+ ".png").
Proof. unfold frame_file, frame_path. now rewrite !string_app_assoc. Qed.

Lemma string_ltb_compare (a b : string) : String.compare a b = Lt → String.ltb a b = true.
Proof. unfold String.ltb. now intros ->. Qed.

(** [print_frame] returns as soon as the frame folder exists and the frame
    file is not a directory. *)
Lemma print_frame_succeeds (self : VideoGenerator) (w : world) :
  0 ≤ frame_count self →
  fs w !! frame_path self = Some Directory →
  fs w !! frame_file self (frame_count self) ≠ Some Directory →
  ∃ w', print_frame self w = (Ok (set_frame_count self (frame_count self + 1)), w').
Proof.
  intros Hcount Hdir Hfile.
  assert (frame_file self (frame_count self) =
          frame_path self +:+ "/" +:+ (format_09d (frame_count self) +:+ ".png")) as Hsplit
    by (rewrite frame_file_split; now rewrite !string_app_assoc).
  pose proof (print_frame_run self w) as Hrun.
  rewrite Hsplit in Hrun, Hfile.
  rewrite write_file_in_dir in Hrun; [eauto | | assumption | assumption].
  rewrite has_slash_app, (digits_no_slash _ (format_09d_digits _ Hcount)). reflexivity.
Qed.

(** C5. [print_frame] saves to the file named after the nine-digit,
    zero-padded frame counter, and for counters from 1 to 999,999,999 the
    names, and the paths, are in lexicographic order when the counters are
    in numeric order. *)
Theorem frame_names_sorted (self self' : VideoGenerator) (w w' : world) (i j : Z) :
  print_frame self w = (Ok self', w') →
  1 ≤ i → i < j → j ≤ 999999999 →
  trace w' = trace w ++ [EvSavefig (frame_path self +:+ "/" +:+
                                    format_09d (frame_count self) +:+ ".png")] ∧
  fs w' !! (frame_path self +:+ "/" +:+ format_09d (frame_count self) +:+ ".png")
    = Some Regular ∧
  format_09d i = fixed_digits 9 i ∧
  String.length (format_09d i) = 9%nat ∧
  String.ltb (format_09d i) (format_09d j) = true ∧
  String.ltb (frame_file self i) (frame_file self j) = true.
Proof.
  intros Hprint Hi Hij Hj.
  assert (frame_path self +:+ "/" +:+ format_09d (frame_count self) +:+ ".png"
          = frame_file self (frame_count self)) as Hname
    by (rewrite frame_file_split; now rewrite !string_app_assoc).
  rewrite Hname.
  pose proof (print_frame_run self w) as Hrun.
  destruct (write_file _ (fs w)) as [files|e] eqn:Hwrite;
    [|destruct Hrun as [w'' Hrun]; congruence].
  rewrite Hrun in Hprint. injection Hprint as <- <-. cbn [fs trace].
  apply write_file_ok in Hwrite as [_ ->].
  split; [reflexivity|]. split; [apply lookup_insert_eq|].
  assert (format_09d i = fixed_digits 9 i) as Hfi by (apply format_09d_fixed; lia).
  assert (format_09d j = fixed_digits 9 j) as Hfj by (apply format_09d_fixed; lia).
  assert (String.compare (fixed_digits 9 i) (fixed_digits 9 j) = Lt) as Hlt
    by (apply fixed_digits_lt; lia).
  split; [assumption|]. split; [rewrite Hfi; apply fixed_digits_length|]. split.
  - apply string_ltb_compare. now rewrite Hfi, Hfj.
  - apply string_ltb_compare. rewrite !frame_file_split, string_compare_app_l, Hfi, Hfj.
    apply string_compare_app_Lt; [now rewrite !fixed_digits_length | assumption].
Qed.

(** ** Assembling the animation *)

(** The world the two encoder runs leave. *)
Definition encoded (run : list string → filesystem → Z * filesystem)
    (self : VideoGenerator) (framerate : Z) (w : world) : world :=
  {| heap := heap w;
     fs := (run (paletteuse_args self framerate) (run (palettegen_args self) (fs w)).2).2;
     figures := figures w;
     trace := trace w ++
       [EvCall (palettegen_args self) (Some (run (palettegen_args self) (fs w)).1);
        EvCall (paletteuse_args self framerate)
          (Some (run (paletteuse_args self framerate)
                   (run (palettegen_args self) (fs w)).2).1)] |}.

(** C1, as the code has it. [print_video] never looks at the exit statuses:
    with [ffmpeg] found it returns normally when [clear_frames] is false,
    and returns what the frame clean-up returns otherwise, whatever the two
    runs exit with.  With [ffmpeg] not found, the [FileNotFoundError] of
    [subprocess.call] leaves [print_video]. *)
Theorem print_video_exit_status_ignored (host : platform) (self : VideoGenerator)
    (framerate : Z) (clear_frames : bool) (w : world) :
  match executable host "ffmpeg" with
  | Some run =>
      print_video host self framerate clear_frames w =
      if clear_frames
      then clear_frame_folder host self (encoded run self framerate w)
      else (Ok tt, encoded run self framerate w)
  | None =>
      (print_video host self framerate clear_frames w).1 = Raise FileNotFoundError
  end.
Proof.
  destruct (executable host "ffmpeg") as [run|] eqn:Hrun.
  - now rewrite (print_video_run host self framerate clear_frames w run Hrun).
  - now rewrite (print_video_no_encoder host self framerate clear_frames w Hrun).
Qed.

(** The trace grows by [os.remove] calls only. *)
Definition removes_logged : relation world :=
  λ w w', ∃ removed, trace w' = trace w ++ (EvRemove <$> removed).

#[export] Instance removes_logged_preorder : PreOrder removes_logged.
Proof.
  split.
  - intros w. exists []. now rewrite app_nil_r.
  - intros w1 w2 w3 [l1 H1] [l2 H2]. exists (l1 ++ l2).
    now rewrite H2, H1, fmap_app, app_assoc.
Qed.

Lemma clear_frame_folder_removes (host : platform) (self : VideoGenerator) :
  preserved removes_logged (clear_frame_folder host self).
Proof.
  unfold clear_frame_folder. apply preserved_bind; [apply _ | apply glob_png_preserved, _ |].
  intros l. apply preserved_for_each; [apply _|]. intros p.
  unfold os_remove_call, fs_call. apply preserved_bind; [apply _ | | intros _].
  - intros w. exists [p]. reflexivity.
  - intros w. exists []. rewrite app_nil_r. apply fs_apply_trace.
Qed.



(** * Concrete runs *)

(** The example at the end of the source file: an instance named ["test"]
    with four colours, one frame drawn and saved. *)
Definition example_init : result VideoGenerator * world :=
  init (host_with_ffmpeg 0) "test" 2%positive "visualisations" example_world.

Definition example_instance : VideoGenerator :=
  match example_init.1 with
  | Ok self => self
  | Raise _ => built "" "" 1%positive [] 0
  end.

Definition example_calls : list method :=
  [DrawFrame [[0; 0; 0]; [0; 1; 0]; [0; 0; 0]]; PrintFrame].

Definition example_session : result VideoGenerator * world :=
  calls (host_with_ffmpeg 0) example_instance example_calls example_init.2.

Definition example_instance_after : VideoGenerator :=
  match example_session.1 with
  | Ok self => self
  | Raise _ => example_instance
  end.

Lemma example_init_ok : example_init = (Ok example_instance, example_init.2).
Proof. vm_compute. reflexivity. Qed.

Lemma example_session_ok :
  example_session = (Ok example_instance_after, example_session.2).
Proof. vm_compute. reflexivity. Qed.

Lemma example_scheme_NoDup : NoDup (dict_keys example_scheme).
Proof. apply (bool_decide_unpack (NoDup (dict_keys example_scheme))). vm_compute. exact I. Qed.

Lemma example_scheme_live : heap example_world !! 2%positive = Some example_scheme.
Proof. reflexivity. Qed.


Lemma example_scheme_keys : Forall (λ k, 0 ≤ k) (dict_keys example_scheme).
Proof. repeat constructor; discriminate. Qed.

Lemma colour_table_dense_witness :
  (∃ max_key, max_key ∈ dict_keys example_scheme ∧
     Z.of_nat (length (cmap example_instance)) = max_key + 1) ∧
  cmap example_instance_after = cmap example_instance.
Proof.
  destruct (colour_table_dense (host_with_ffmpeg 0) "test" 2%positive "visualisations"
              example_world example_init.2 example_session.2 example_scheme
              example_instance example_instance_after example_calls
              example_scheme_live example_scheme_NoDup example_scheme_keys
              example_init_ok example_session_ok)
    as (s & max_key & _ & _ & Hin & _ & Hlen & _ & _ & Hsame).
  split; [|assumption]. exists max_key. split; assumption.
Defined.

Lemma frame_counter_counts_persists_witness :
  frame_count example_instance = 1 ∧ frame_count example_instance_after = 2.
Proof.
  destruct (frame_counter_counts_persists (host_with_ffmpeg 0) "test" 2%positive
              "visualisations" example_world example_init.2 example_session.2
              example_instance example_instance_after example_calls
              example_init_ok example_session_ok)
    as (Hstart & Hafter & _).
  split; [assumption|]. rewrite Hafter. reflexivity.
Defined.

Lemma example_print_ok :
  print_frame example_instance example_init.2 =
  (Ok (set_frame_count example_instance 2), (print_frame example_instance example_init.2).2).
Proof. vm_compute. reflexivity. Qed.

Lemma frame_names_sorted_witness :
  String.ltb (format_09d 9) (format_09d 10) = true ∧
  String.ltb (frame_file example_instance 9) (frame_file example_instance 10) = true.
Proof.
  destruct (frame_names_sorted example_instance (set_frame_count example_instance 2)
              example_init.2 (print_frame example_instance example_init.2).2 9 10
              example_print_ok ltac:(lia) ltac:(lia) ltac:(lia))
    as (_ & _ & _ & _ & Hnames & Hpaths).
  split; assumption.
Defined.







Lemma example_path_literal :
  has_magic ("visualisations" +:+ "/" +:+ "test" +:+ "/" +:+ "frames") = false.
Proof. vm_compute. reflexivity. Qed.



(** A caller's empty dictionary at reference 2. *)
Definition empty_scheme_world : world :=
  {| heap := <[ 2%positive := [] ]> (heap class_defined); fs := ∅; figures := [];
     trace := [] |}.

Lemma empty_scheme_live : heap empty_scheme_world !! 2%positive = Some [].
Proof. reflexivity. Qed.

Lemma empty_scheme_raises_max_error_witness :
  (init (host_with_ffmpeg 0) "test" 2%positive "visualisations" empty_scheme_world).1
    = Raise ValueError_max_empty ∧
  fs (init (host_with_ffmpeg 0) "test" 2%positive "visualisations" empty_scheme_world).2
    = ∅.
Proof.
  destruct (empty_scheme_raises_max_error (host_with_ffmpeg 0) "test" 2%positive
              "visualisations" empty_scheme_world [] empty_scheme_live)
    as (Hraises & Hworld & _).
  split; [apply Hraises; reflexivity|].
  rewrite Hworld by reflexivity. reflexivity.
Defined.

Lemma default_scheme_live :
  heap class_defined !! default_colour_scheme = Some [(0, black)].
Proof. reflexivity. Qed.

Lemma caller_scheme_never_mutated_witness :
  heap (init (host_with_ffmpeg 0) "test" default_colour_scheme default_output_folder
          class_defined).2 !! default_colour_scheme = Some [(0, black)].
Proof.
  destruct (caller_scheme_never_mutated (host_with_ffmpeg 0) "test" default_colour_scheme
              default_output_folder class_defined [(0, black)] default_scheme_live)
    as [Hsame _].
  exact Hsame.
Defined.

(** ** Where the specification and the code differ *)

(** C1. Without [ffmpeg] on the search path, [print_video] raises: the
    [FileNotFoundError] of the first [subprocess.call] is not caught. *)
Lemma print_video_raises_without_ffmpeg :
  (print_video host_without_ffmpeg example_instance_after 10 true example_session.2).1
    = Raise FileNotFoundError ∧
  (print_video host_without_ffmpeg example_instance_after 10 false example_session.2).1
    = Raise FileNotFoundError.
Proof. split; vm_compute; reflexivity. Qed.

(** A frame folder that also holds a file that is no PNG image. *)
Definition stale_world : world :=
  {| heap := heap example_world;
     fs := {[ "visualisations" := Directory;
              "visualisations/test" := Directory;
              "visualisations/test/frames" := Directory;
              "visualisations/test/frames/notes.txt" := Regular ]};
     figures := []; trace := [] |}.



(** ** More on clearing the frame folder *)

Lemma remove_only_regular (host : platform) (self : VideoGenerator) (w w' : world) :
  clear_frame_folder host self w = (Ok tt, w') →
  ∀ p, fs w' !! p = fs w !! p ∨ (fs w !! p = Some Regular ∧ fs w' !! p = None).
Proof.
  unfold clear_frame_folder. intros H. bind_inv H.
  assert (w0 = w) as -> by (unfold glob_png in E; now injection E).
  apply remove_all_inv in H as (_ & _ & _ & Hin & Hout).
  intros p. destruct (decide (p ∈ a)) as [Hp | Hp]; [right; auto | left; auto].
Qed.

Lemma clear_frame_folder_figures (host : platform) (self : VideoGenerator) :
  preserved (same figures) (clear_frame_folder host self).
Proof.
  unfold clear_frame_folder, os_remove_call, fs_call.
  pose proof (glob_png_preserved host (same figures)). frame.
Qed.

(** * Further properties of the class *)

(** ** Construction that fails and construction that succeeds *)




(** X2. A successful construction, for a frame path without wildcard
    characters, removes no file other than those matching [frames/*.png],
    writes no file other than the palette preview, and removes no
    directory. *)
Theorem construction_keeps_other_files (host : platform) (nm : string) (cs : loc)
    (out : string) (w w1 : world) (self : VideoGenerator) :
  has_magic (out +:+ "/" +:+ nm +:+ "/" +:+ "frames") = false →
  init host nm cs out w = (Ok self, w1) →
  (∀ p, fs w !! p = Some Regular →
     png_in (out +:+ "/" +:+ nm +:+ "/" +:+ "frames") p = false →
     fs w1 !! p = Some Regular) ∧
  (∀ p, fs w1 !! p = Some Regular →
     fs w !! p = Some Regular ∨ p = (out +:+ "/" +:+ nm) +:+ "/generated_palette.png") ∧
  (∀ p, fs w !! p = Some Directory → fs w1 !! p = Some Directory).
Proof.
  intros Hmagic Hinit.
  apply init_inv in Hinit
    as (d & s & mx & f1 & f2 & f3 & wc & _ & _ & _ & -> & H1 & H2 & H3 & Hclear & Hpal).
  pose proof (makedirs_ok _ _ _ H1) as (_ & Hg1 & _).
  pose proof (makedirs_ok _ _ _ H2) as (_ & Hg2 & _).
  pose proof (makedirs_ok _ _ _ H3) as (_ & Hg3 & _).
  pose proof (grown_trans _ _ _ (grown_trans _ _ _ Hg1 Hg2) Hg3) as Hg.
  assert (has_magic (frame_path (built nm out (fresh (dom (heap w))) s mx)) = false)
    as Hmagic' by exact Hmagic.
  destruct (clear_frame_folder_literal host _ _ _ Hmagic' Hclear) as [Hkeep _].
  pose proof (preserved_run _ _ _ _ _ (clear_frame_folder_dirs_same host _) Hclear) as Hsame.
  pose proof (remove_only_regular _ _ _ _ Hclear) as Hrm.
  apply generate_palette_inv in Hpal as (files & Hwrite & ->).
  apply write_file_ok in Hwrite as [Hnodir ->]. cbn [fs] in *.
  change (run_dir (built nm out (fresh (dom (heap w))) s mx))
    with (out +:+ "/" +:+ nm) in *.
  change (frame_path (built nm out (fresh (dom (heap w))) s mx))
    with (out +:+ "/" +:+ nm +:+ "/" +:+ "frames") in *.
  split; [|split].
  - intros p Hp Hpng.
    destruct (decide ((out +:+ "/" +:+ nm) +:+ "/generated_palette.png" = p)) as [<- | Hne].
    + apply lookup_insert_eq.
    + rewrite lookup_insert_ne, Hkeep by assumption.
      destruct (Hg p) as [-> | [Hnone _]]; congruence.
  - intros p Hp.
    destruct (decide ((out +:+ "/" +:+ nm) +:+ "/generated_palette.png" = p)) as [<- | Hne];
      [now right|]. left.
    rewrite lookup_insert_ne in Hp by assumption.
    destruct (Hrm p) as [Heq | [_ Hnone]]; [|congruence].
    rewrite Heq in Hp. destruct (Hg p) as [Heq' | [_ Hdir]]; congruence.
  - intros p Hp. apply (grown_directory _ _ _ Hg) in Hp. apply Hsame in Hp.
    rewrite lookup_insert_ne; [assumption|]. intros <-. contradiction.
Qed.

Lemma remove_all_raises (l : list string) (w w' : world) (e : exn) :
  NoDup l → (∀ p, p ∈ l → is_Some (fs w !! p)) →
  for_each l os_remove_call w = (Raise e, w') →
  e = IsADirectoryError ∧ ∃ p, p ∈ l ∧ fs w !! p = Some Directory.
Proof.
  revert w. induction l as [|q l IH]; intros w Hnd Hpresent H; [discriminate|].
  cbn [for_each] in H. rewrite bind_run in H. unfold os_remove_call at 1 in H.
  rewrite fs_call_run in H. unfold os_remove in H.
  apply NoDup_cons in Hnd as [Hq Hnd].
  destruct (Hpresent q ltac:(left)) as [k Hk]. rewrite Hk in H. destruct k.
  - injection H as <- _. split; [reflexivity|]. exists q. split; [left | assumption].
  - apply IH in H as (He & p & Hp & Hdir); [| assumption |].
    + split; [assumption|]. exists p. split; [now right|].
      cbn [fs] in Hdir. rewrite lookup_delete_ne in Hdir; [assumption|].
      intros ->. contradiction.
    + intros p Hp. cbn [fs]. rewrite lookup_delete_ne by (intros ->; contradiction).
      apply Hpresent. now right.
Qed.

(** X3. With a frame path without wildcard characters, [clear_frame_folder]
    returns exactly when no directory matches [frames/*.png]; when one does,
    the [IsADirectoryError] of [os.remove] leaves the method, and no other
    error ever does. *)
Theorem clear_frame_folder_returns_iff (host : platform) (self : VideoGenerator)
    (w : world) :
  has_magic (frame_path self) = false →
  fs w !! frame_path self = Some Directory →
  ((clear_frame_folder host self w).1 = Ok tt ↔
   ∀ p, png_in (frame_path self) p = true → fs w !! p ≠ Some Directory) ∧
  (∀ e, (clear_frame_folder host self w).1 = Raise e → e = IsADirectoryError).
Proof.
  intros Hmagic Hdir.
  assert (∀ e w', clear_frame_folder host self w = (Raise e, w') →
            e = IsADirectoryError ∧
            ∃ p, png_in (frame_path self) p = true ∧ fs w !! p = Some Directory) as Hraise.
  { intros e w' H. unfold clear_frame_folder in H.
    rewrite bind_run, glob_png_run in H by assumption.
    apply remove_all_raises in H as (He & p & Hp & Hpdir).
    - split; [assumption|]. exists p. split; [|assumption].
      now apply png_files_matching in Hp as [Hm _].
    - apply png_files_NoDup.
    - intros p Hp. now apply png_files_matching in Hp as [_ Hsome]. }
  split; [split|].
  - intros Hok p Hp Hpdir.
    destruct (clear_frame_folder host self w) as [r w'] eqn:Hrun. cbn in Hok. subst r.
    unfold clear_frame_folder in Hrun. bind_inv Hrun.
    rewrite glob_png_run in E by assumption. injection E as <- <-.
    apply remove_all_inv in Hrun as (_ & _ & _ & Hin & _).
    destruct (Hin p) as [Hreg _]; [|congruence].
    apply elem_of_png_files; [assumption|]. rewrite Hpdir. eauto.
  - intros Hnodir. destruct (clear_frame_folder_ok host self w Hmagic Hnodir) as [w' ->].
    reflexivity.
  - intros e He. destruct (clear_frame_folder host self w) as [r w'] eqn:Hrun.
    cbn in He. subst r. now destruct (Hraise e w' eq_refl) as [-> _].
Qed.

(** X4. Whatever [glob] returns, a [clear_frame_folder] that returns has
    called nothing but [os.remove], changed no dictionary and no figure,
    removed regular files only and created nothing. *)
Theorem clear_frame_folder_only_removes (host : platform) (self : VideoGenerator)
    (w w' : world) :
  clear_frame_folder host self w = (Ok tt, w') →
  heap w' = heap w ∧ figures w' = figures w ∧
  (∃ removed, trace w' = trace w ++ (EvRemove <$> removed) ∧
     ∀ p, p ∈ removed ↔ fs w !! p = Some Regular ∧ fs w' !! p = None) ∧
  (∀ p, fs w' !! p = fs w !! p ∨ (fs w !! p = Some Regular ∧ fs w' !! p = None)).
Proof.
  unfold clear_frame_folder. intros H. bind_inv H.
  assert (w0 = w) as -> by (unfold glob_png in E; now injection E).
  apply remove_all_inv in H as (Hheap & Hfig & Htrace & Hin & Hout).
  split; [assumption|]. split; [assumption|]. split.
  - exists a. split; [assumption|]. intros p. split; [auto|].
    intros [Hreg Hnone]. destruct (decide (p ∈ a)) as [Hp | Hp]; [assumption|].
    rewrite Hout in Hnone by assumption. congruence.
  - intros p. destruct (decide (p ∈ a)) as [Hp | Hp]; [right; auto | left; auto].
Qed.

(** ** Construction in an empty working directory *)









(** ** Figures: what is opened and what is closed *)





Lemma calls_app (host : platform) (ms1 ms2 : list method) (self self1 : VideoGenerator)
    (w w1 : world) :
  calls host self ms1 w = (Ok self1, w1) →
  calls host self (ms1 ++ ms2) w = calls host self1 ms2 w1.
Proof.
  revert self w. induction ms1 as [|m ms1 IH]; intros self w H.
  - now injection H as <- <-.
  - cbn [app calls] in *. rewrite bind_run in *.
    destruct (call host self m w) as [[self2|e] w2]; [auto | discriminate].
Qed.

(** [draw_line] calls draw on the current figure and touch nothing else. *)
Lemma draw_lines_run (host : platform) (self : VideoGenerator) (ls : list method)
    (fig : figure) (rest : list figure) (w : world) :
  Forall (λ m, is_draw_line m = true) ls →
  figures w = fig :: rest →
  ∃ fig' w', calls host self ls w = (Ok self, w') ∧
    figures w' = fig' :: rest ∧ fs w' = fs w ∧ heap w' = heap w ∧ trace w' = trace w.
Proof.
  intros Hls. revert fig w. induction Hls as [|m ls Hm _ IH]; intros fig w Hfig.
  - exists fig, w. repeat split. assumption.
  - destruct m; try discriminate. cbn [calls call].
    rewrite !bind_run. unfold draw_line, plt_plot, on_current, with_figures.
    cbn [mret M_ret]. rewrite Hfig.
    match goal with |- context [calls host self ls ?w1] =>
      match w1 with context [?fig1 :: rest] =>
        destruct (IH fig1 w1 eq_refl) as (fig' & w' & Hrun & Hfigs & Hfs & Hheap & Htrace)
      end end.
    exists fig', w'. rewrite Hrun. repeat split; assumption.
Qed.

(** X7. [draw_frame] opens one figure and closes none; [draw_line] draws on
    the figure that is open; [print_frame] closes it.  So a [draw_frame],
    any number of [draw_line] calls and a [print_frame] leave the figures
    that were open as they were, and a [draw_frame] that no [print_frame]
    follows leaves one more figure open; none of this touches a file before
    [print_frame] does. *)
Theorem draw_then_print_closes_figure (host : platform) (self self' : VideoGenerator)
    (frame : list (list Z)) (ls : list method) (w w' : world) :
  Forall (λ m, is_draw_line m = true) ls →
  calls host self (DrawFrame frame :: ls ++ [PrintFrame]) w = (Ok self', w') →
  figures w' = figures w ∧
  (∃ fig, figures (calls host self (DrawFrame frame :: ls) w).2 = fig :: figures w) ∧
  fs (calls host self (DrawFrame frame :: ls) w).2 = fs w.
Proof.
  intros Hls Hrun.
  assert (∃ fig, draw_frame self frame w =
            (Ok tt, {| heap := heap w; fs := fs w; figures := fig :: figures w;
                       trace := trace w |})) as [fig Hdraw].
  { unfold draw_frame, plt_figure, plt_axis_off, plt_imshow, on_current, with_figures.
    unfold mbind, M_bind. cbn [figures heap fs trace]. eauto. }
  destruct (draw_lines_run host self ls fig (figures w)
              {| heap := heap w; fs := fs w; figures := fig :: figures w; trace := trace w |}
              Hls eq_refl)
    as (fig' & w2 & Hlines & Hfigs & Hfs & _ & _).
  assert (calls host self (DrawFrame frame :: ls) w = (Ok self, w2)) as Hprefix.
  { cbn [calls call]. rewrite !bind_run, Hdraw. exact Hlines. }
  rewrite Hprefix. cbn [snd]. split; [|split; [eauto | exact Hfs]].
  change (DrawFrame frame :: ls ++ [PrintFrame])
    with ((DrawFrame frame :: ls) ++ [PrintFrame]) in Hrun.
  rewrite (calls_app host _ [PrintFrame] _ _ _ _ Hprefix) in Hrun.
  cbn [calls call] in Hrun. bind_inv Hrun. injection Hrun as _ <-.
  pose proof (print_frame_run self w2) as Hrun2.
  destruct (write_file _ (fs w2)) as [files|e];
    [|destruct Hrun2 as [w'' Hrun2]; congruence].
  rewrite Hrun2 in E. injection E as _ <-. cbn [figures]. now rewrite Hfigs.
Qed.


(** X9. Without [ffmpeg], [print_video] stops at the first call: no second
    call is attempted and no frame is removed, also when [clear_frames] is
    true. *)
Theorem print_video_without_encoder_keeps_files (host : platform) (self : VideoGenerator)
    (framerate : Z) (clear_frames : bool) (w : world) :
  executable host "ffmpeg" = None →
  fs (print_video host self framerate clear_frames w).2 = fs w ∧
  heap (print_video host self framerate clear_frames w).2 = heap w ∧
  figures (print_video host self framerate clear_frames w).2 = figures w ∧
  ∃ args, trace (print_video host self framerate clear_frames w).2 =
            trace w ++ [EvCall args None].
Proof.
  intros Hrun. rewrite (print_video_no_encoder host self framerate clear_frames w Hrun).
  cbn [snd fs heap figures trace]. eauto.
Qed.

(** ** The colour table and the cells drawn *)



Lemma NoDup_bounded_length (l : list nat) (n : nat) :
  NoDup l → (∀ x, x ∈ l → (x < n)%nat) → (length l ≤ n)%nat.
Proof.
  intros Hnd Hlt. pose proof (submseteq_length l (seq 0 n)) as Hlen.
  rewrite length_seq in Hlen. apply Hlen.
  apply NoDup_submseteq; [assumption|]. intros x Hx. apply elem_of_seq. specialize (Hlt x Hx). lia.
Qed.

(** X11. The instance's [n_colours] is the number of entries of the caller's
    colour scheme and, keys being non-negative, never exceeds the length of
    the colour table: the palette preview, which shows the values below
    [n_colours], stays inside the table. *)
Theorem n_colours_within_table (host : platform) (nm : string) (cs : loc) (out : string)
    (w w1 : world) (d : dict) (self : VideoGenerator) :
  heap w !! cs = Some d →
  NoDup (dict_keys d) →
  Forall (λ k, 0 ≤ k) (dict_keys d) →
  init host nm cs out w = (Ok self, w1) →
  n_colours self = Z.of_nat (length d) ∧
  n_colours self ≤ Z.of_nat (length (cmap self)).
Proof.
  intros Hcs Hnd Hpos Hinit.
  destruct (init_ok host nm cs out w w1 d self Hcs Hinit)
    as (s & mx & Hnorm & Hmax & -> & _ & _).
  apply normalise_items_entries in Hnorm as (t & -> & Hentries); [|exact Hnd].
  cbn [app] in *. pose proof (normalised_entries_keys _ _ Hentries) as Hkeys.
  pose proof (Forall2_length _ _ _ Hentries) as Hlen.
  apply py_max_spec in Hmax as [Hin Hle]. rewrite Hkeys in Hin, Hle.
  cbn [n_colours cmap built]. rewrite colour_table_length, <- Hlen.
  split; [reflexivity|].
  rewrite Forall_forall in Hpos.
  assert (length (Z.to_nat <$> dict_keys d) ≤ Z.to_nat (mx + 1))%nat as Hbound.
  { apply NoDup_bounded_length.
    - apply NoDup_fmap_2_strong; [|assumption].
      intros x y Hx Hy Heq. apply Hpos in Hx, Hy. lia.
    - intros x Hx. apply list_elem_of_fmap in Hx as (k & -> & Hk).
      specialize (Hle k Hk). specialize (Hpos k Hk). lia. }
  rewrite length_fmap in Hbound. unfold dict_keys in Hbound. rewrite length_fmap in Hbound. lia.
Qed.

(** X12. [create_colormap], called again on a constructed instance after any
    method calls, returns the table stored at construction and changes
    nothing: the table and the instance's dictionary stay in step. *)
Theorem create_colormap_repeatable (host : platform) (nm : string) (cs : loc) (out : string)
    (w w1 w2 : world) (d : dict) (self self' : VideoGenerator) (ms : list method) :
  heap w !! cs = Some d →
  init host nm cs out w = (Ok self, w1) →
  calls host self ms w1 = (Ok self', w2) →
  create_colormap self' w2 = (Ok (cmap self'), w2).
Proof.
  intros Hcs Hinit Hcalls.
  destruct (init_ok host nm cs out w w1 d self Hcs Hinit)
    as (s & mx & _ & Hmax & -> & Hheap & _).
  pose proof (preserved_run _ _ _ _ _ (calls_heap host _ ms) Hcalls) as Hheap2.
  unfold same in Hheap2. apply calls_self in Hcalls. subst self'.
  rewrite (create_colormap_run _ s).
  - now rewrite Hmax.
  - cbn [colour_scheme set_frame_count built]. rewrite Hheap2, Hheap. apply lookup_insert_eq.
Qed.

(** ** Frame files of a run *)

Lemma digits_value_from_app (acc : Z) (a b : string) :
  digits_value_from acc (a +:+ b) = digits_value_from (digits_value_from acc a) b.
Proof.
  revert acc. induction a as [|c a IH]; intros acc; [reflexivity|].
  rewrite string_app_cons. cbn [digits_value_from]. apply IH.
Qed.

Lemma digit_value_char (d : Z) : 0 ≤ d ≤ 9 → digit_value (digit_char d) = d.
Proof. intros Hd. unfold digit_value. rewrite digit_char_code by assumption. lia. Qed.

Lemma decimal_digits_value (fuel : nat) (n : Z) :
  0 ≤ n → n < 10 ^ Z.of_nat fuel → (0 < fuel)%nat →
  digits_value_from 0 (decimal_digits fuel n) = n.
Proof.
  revert n. induction fuel as [|fuel IH]; intros n Hn Hfuel Hpos; [lia|].
  cbn [decimal_digits]. destruct (n <? 10) eqn:Hlt.
  - apply Z.ltb_lt in Hlt. cbn [digits_value_from]. rewrite digit_value_char by lia. lia.
  - apply Z.ltb_ge in Hlt. rewrite Nat2Z.inj_succ, Z.pow_succ_r in Hfuel by lia.
    assert (0 < fuel)%nat by (destruct fuel; [simpl in Hfuel; lia | lia]).
    rewrite digits_value_from_app, IH; try lia.
    + pose proof (Z.mod_pos_bound n 10 ltac:(lia)).
      cbn [digits_value_from]. rewrite digit_value_char by lia.
      pose proof (Z.div_mod n 10). lia.
    + apply Z.div_pos; lia.
    + apply Z.div_lt_upper_bound; lia.
Qed.

Lemma zeros_value (k : nat) : digits_value_from 0 (zeros k) = 0.
Proof. induction k as [|k IH]; [reflexivity|]. cbn [zeros digits_value_from]. exact IH. Qed.

(** Reading the formatted counter back gives the counter. *)
Lemma format_09d_value (n : Z) : 0 ≤ n → digits_value_from 0 (format_09d n) = n.
Proof.
  intros Hn. unfold format_09d. destruct (n <? 0) eqn:Hneg; [apply Z.ltb_lt in Hneg; lia|].
  unfold zero_pad, str_nat. rewrite digits_value_from_app, zeros_value.
  apply decimal_digits_value; [assumption | now apply str_nat_fuel | lia].
Qed.

Lemma string_app_inv_r (a b s : string) : a +:+ s = b +:+ s → a = b.
Proof.
  intros H.
  assert (String.length a = String.length b) as Hlen.
  { apply (f_equal String.length) in H. rewrite !string_length_app in H. lia. }
  revert b H Hlen. induction a as [|c a IH]; intros [|c' b] H Hlen; try discriminate.
  - reflexivity.
  - rewrite !string_app_cons in H. injection H as -> H. f_equal. apply IH; [assumption|].
    cbn in Hlen. lia.
Qed.

(** X13. Different non-negative frame counters give different file names
    and different frame files, also beyond 999,999,999: a run never saves
    two frames to the same file. *)
Theorem frame_files_distinct (self : VideoGenerator) (i j : Z) :
  0 ≤ i → 0 ≤ j →
  (format_09d i = format_09d j → i = j) ∧
  (frame_file self i = frame_file self j → i = j).
Proof.
  intros Hi Hj.
  assert (format_09d i = format_09d j → i = j) as Hnames.
  { intros H. apply (f_equal (digits_value_from 0)) in H.
    now rewrite !format_09d_value in H. }
  split; [assumption|].
  intros H. rewrite !frame_file_split in H. apply String.app_inj in H.
  apply string_app_inv_r in H. auto.
Qed.

Lemma draw_call_run (host : platform) (self self' : VideoGenerator) (m : method)
    (w w' : world) :
  is_draw_or_print m = true → is_print_frame m = false →
  call host self m w = (Ok self', w') → self' = self ∧ fs w' = fs w.
Proof.
  intros Hm Hp Hcall. split; [apply call_self in Hcall; now rewrite Hp in Hcall|].
  destruct m; try discriminate; cbn [call] in Hcall; bind_inv Hcall;
    injection Hcall as _ <-.
  - eapply (preserved_run (same fs)); [|exact E].
    unfold draw_frame, plt_figure, plt_axis_off, plt_imshow, on_current. frame.
  - eapply (preserved_run (same fs)); [|exact E].
    unfold draw_line, plt_plot, on_current. frame.
Qed.

(** X14. Through any sequence of [draw_frame], [draw_line] and
    [print_frame] calls that returns, no regular file disappears and every
    frame saved stays: afterwards the frame file of every counter from the
    one the sequence started with up to the current one (excluded) is
    there. *)
Theorem saved_frames_stay (host : platform) (ms : list method)
    (self self' : VideoGenerator) (w w' : world) :
  Forall (λ m, is_draw_or_print m = true) ms →
  calls host self ms w = (Ok self', w') →
  (∀ p, fs w !! p = Some Regular → fs w' !! p = Some Regular) ∧
  (∀ count, frame_count self ≤ count → count < frame_count self' →
     fs w' !! frame_file self count = Some Regular).
Proof.
  intros Hms. revert self w. induction Hms as [|m ms Hm _ IH]; intros self w Hcalls.
  - injection Hcalls as <- <-. split; [auto | intros; lia].
  - cbn [calls] in Hcalls. bind_inv Hcalls.
    pose proof (calls_self host ms _ _ _ _ Hcalls) as Hself'.
    apply IH in Hcalls as [Hkeep Hframes].
    destruct (is_print_frame m) eqn:Hp.
    + destruct m; try discriminate. cbn [call] in E.
      pose proof (print_frame_run self w) as Hrun.
      destruct (write_file _ (fs w)) as [files|e] eqn:Hwrite;
        [|destruct Hrun as [w'' Hrun]; congruence].
      rewrite Hrun in E. injection E as <- <-.
      apply write_file_ok in Hwrite as [_ ->]. cbn [fs] in Hkeep.
      assert (0 ≤ persist_calls ms) by (unfold persist_calls; lia).
      split.
      * intros p Hp'. apply Hkeep.
        destruct (decide (frame_file self (frame_count self) = p)) as [<- | Hne];
          [apply lookup_insert_eq | now rewrite lookup_insert_ne].
      * intros count Hlo Hhi. destruct (decide (count = frame_count self)) as [-> | Hne].
        -- apply Hkeep. apply lookup_insert_eq.
        -- assert (frame_count (set_frame_count self (frame_count self + 1)) ≤ count) as Hlo'
             by (cbn [frame_count set_frame_count]; lia).
           exact (Hframes count Hlo' Hhi).
    + destruct (draw_call_run host self a m w w0 Hm Hp E) as [-> Hfs].
      rewrite Hfs in Hkeep. split; assumption.
Qed.

(** ** The example program *)

Lemma new_dict_of_trace entries : preserved (same trace) (new_dict_of entries).
Proof. unfold new_dict_of. frame. Qed.

Lemma new_dict_of_figures entries : preserved (same figures) (new_dict_of entries).
Proof. unfold new_dict_of. frame. Qed.

Lemma main_step_run (color : Z) (vg vg' : VideoGenerator) (data data' : list (list Z))
    (w w' : world) :
  main_step color (vg, data) w = (Ok (vg', data'), w') →
  vg' = set_frame_count vg (frame_count vg + 1) ∧
  trace w' = trace w ++ [EvSavefig (frame_file vg (frame_count vg))] ∧
  figures w' = figures w.
Proof.
  unfold main_step. cbn [fst snd]. intros H. bind_inv H. bind_inv H.
  injection H as <- _ <-.
  assert (trace w0 = trace w ∧ ∃ fig, figures w0 = fig :: figures w) as [Htrace [fig Hfig]].
  { revert E. unfold draw_frame, plt_figure, plt_axis_off, plt_imshow, on_current,
      with_figures. unfold mbind, M_bind. cbn [figures heap fs trace].
    intros [= _ <-]. cbn [trace figures]. split; [reflexivity | eauto]. }
  pose proof (print_frame_run vg w0) as Hrun.
  destruct (write_file _ (fs w0)) as [files|e];
    [|destruct Hrun as [w'' Hrun]; congruence].
  rewrite Hrun in E0. injection E0 as <- <-. cbn [trace figures].
  rewrite Htrace, Hfig. repeat split.
Qed.

Lemma init_trace (host : platform) (nm : string) (cs : loc) (out : string) (w w1 : world)
    (self : VideoGenerator) :
  init host nm cs out w = (Ok self, w1) →
  name self = nm ∧ output_folder self = out ∧ frame_folder self = "frames" ∧
  frame_count self = 1 ∧ figures w1 = figures w ∧
  ∃ removed, trace w1 = trace w ++
    [EvMakedirs out; EvMakedirs (out +:+ "/" +:+ nm);
     EvMakedirs (out +:+ "/" +:+ nm +:+ "/" +:+ "frames")] ++ (EvRemove <$> removed) ++
    [EvSavefig ((out +:+ "/" +:+ nm) +:+ "/generated_palette.png")].
Proof.
  intros Hinit.
  apply init_inv in Hinit
    as (d & s & mx & f1 & f2 & f3 & wc & _ & _ & _ & -> & _ & _ & _ & Hclear & Hpal).
  pose proof (preserved_run _ _ _ _ _ (clear_frame_folder_removes host _) Hclear)
    as [removed Hremoved].
  pose proof (preserved_run _ _ _ _ _ (clear_frame_folder_figures host _) Hclear) as Hfig.
  apply generate_palette_inv in Hpal as (files & _ & ->).
  cbn [name output_folder frame_folder frame_count built figures trace] in *.
  repeat split; try assumption. exists removed. rewrite Hremoved.
  cbn [trace run_dir output_folder name built]. now rewrite <- !app_assoc.
Qed.

(** X15. When the example program runs to completion, it has made the
    three folders, removed stale frames, saved the palette preview and then
    exactly the four frames [000000001.png] to [000000004.png], and called
    [ffmpeg] twice, the second time with [-framerate 4]; what it did after
    that was removing files; the figures that were open are as before. *)
Theorem main_saves_four_frames (host : platform) (w w' : world) :
  main host w = (Ok tt, w') →
  figures w' = figures w ∧
  ∃ stale status1 status2 removed,
    trace w' = trace w ++
      [ EvMakedirs "visualisations"; EvMakedirs "visualisations/test";
        EvMakedirs "visualisations/test/frames" ] ++
      (EvRemove <$> stale) ++
      [ EvSavefig "visualisations/test/generated_palette.png";
        EvSavefig "visualisations/test/frames/000000001.png";
        EvSavefig "visualisations/test/frames/000000002.png";
        EvSavefig "visualisations/test/frames/000000003.png";
        EvSavefig "visualisations/test/frames/000000004.png";
        EvCall [ "ffmpeg"; "-y"; "-i"; "visualisations/test/generated_palette.png";
                 "-vf"; "palettegen"; "visualisations/test/palette.png" ] (Some status1);
        EvCall [ "ffmpeg"; "-y"; "-framerate"; "4";
                 "-i"; "visualisations/test/frames/%09d.png";
                 "-i"; "visualisations/test/palette.png";
                 "-filter_complex"; "paletteuse";
                 "visualisations/test/test.gif" ] (Some status2) ] ++
      (EvRemove <$> removed).
Proof.
  unfold main. intros H. bind_inv H.
  pose proof (preserved_run _ _ _ _ _ (new_dict_of_trace _) E) as Ht0.
  pose proof (preserved_run _ _ _ _ _ (new_dict_of_figures _) E) as Hf0.
  unfold same in Ht0, Hf0. clear E.
  bind_inv H. apply init_trace in E as (Hnm & Hout & Hff & Hcount & Hf1 & stale & Ht1).
  cbv zeta in H. bind_inv H.
  change (py_range 4) with [0; 1; 2; 3] in E. cbn [for_state] in E.
  bind_inv E. destruct a2 as [vg1 data1]. apply main_step_run in E0 as (-> & Ht2 & Hf2).
  bind_inv E. destruct a2 as [vg2 data2]. apply main_step_run in E0 as (-> & Ht3 & Hf3).
  bind_inv E. destruct a2 as [vg3 data3]. apply main_step_run in E0 as (-> & Ht4 & Hf4).
  bind_inv E. destruct a2 as [vg4 data4]. apply main_step_run in E0 as (-> & Ht5 & Hf5).
  injection E as <- <-. cbn [fst] in H.
  destruct (executable host "ffmpeg") as [run|] eqn:Hrun;
    [|rewrite (print_video_no_encoder host _ _ _ _ Hrun) in H; discriminate].
  rewrite (print_video_run host _ _ _ _ run Hrun) in H. cbv zeta in H.
  change default_clear_frames with true in H. cbv iota in H.
  pose proof (preserved_run _ _ _ _ _ (clear_frame_folder_removes host _) H)
    as [removed Ht6].
  pose proof (preserved_run _ _ _ _ _ (clear_frame_folder_figures host _) H) as Hf6.
  unfold same in Hf6. cbn [figures trace] in Ht6, Hf6.
  split; [congruence|].
  exists stale. do 2 eexists. exists removed.
  rewrite Ht6, Ht5, Ht4, Ht3, Ht2, Ht1, Ht0.
  unfold frame_file, palettegen_args, paletteuse_args, run_dir, frame_path.
  cbn [name output_folder frame_folder frame_count set_frame_count].
  rewrite Hnm, Hout, Hff, Hcount.
  rewrite <- !app_assoc. reflexivity.
Qed.

(** * Concrete runs of the further properties *)




(** Construction over the frame folder that holds a file that is no PNG
    image. *)
Definition stale_init : result VideoGenerator * world :=
  init (host_with_ffmpeg 0) "test" 2%positive "visualisations" stale_world.

Lemma stale_init_ok : stale_init = (Ok example_instance, stale_init.2).
Proof. vm_compute. reflexivity. Qed.

Lemma construction_keeps_other_files_witness :
  fs stale_init.2 !! "visualisations/test/frames/notes.txt" = Some Regular.
Proof.
  destruct (construction_keeps_other_files (host_with_ffmpeg 0) "test" 2%positive
              "visualisations" stale_world stale_init.2 example_instance
              example_path_literal stale_init_ok) as [Hkeep _].
  apply Hkeep; vm_compute; reflexivity.
Defined.

(** A frame folder that holds a directory named like a PNG image. *)
Definition blocked_world : world :=
  {| heap := heap example_world;
     fs := {[ "visualisations" := Directory;
              "visualisations/test" := Directory;
              "visualisations/test/frames" := Directory;
              "visualisations/test/frames/old.png" := Directory ]};
     figures := []; trace := [] |}.

Lemma blocked_path_literal : has_magic (frame_path example_instance) = false.
Proof. vm_compute. reflexivity. Qed.

Lemma blocked_frames_exist :
  fs blocked_world !! frame_path example_instance = Some Directory.
Proof. vm_compute. reflexivity. Qed.

Lemma clear_frame_folder_returns_iff_witness :
  (clear_frame_folder (host_with_ffmpeg 0) example_instance blocked_world).1
    = Raise IsADirectoryError.
Proof.
  destruct (clear_frame_folder_returns_iff (host_with_ffmpeg 0) example_instance
              blocked_world blocked_path_literal blocked_frames_exist)
    as [[Hok _] Honly].
  destruct (clear_frame_folder (host_with_ffmpeg 0) example_instance blocked_world).1
    as [[]|e].
  - exfalso.
    apply (Hok eq_refl "visualisations/test/frames/old.png"); vm_compute; reflexivity.
  - f_equal. apply Honly. reflexivity.
Defined.

Lemma example_clear_ok :
  clear_frame_folder (host_with_ffmpeg 0) example_instance_after example_session.2 =
  (Ok tt, (clear_frame_folder (host_with_ffmpeg 0) example_instance_after
             example_session.2).2).
Proof. vm_compute. reflexivity. Qed.

Lemma clear_frame_folder_only_removes_witness :
  heap (clear_frame_folder (host_with_ffmpeg 0) example_instance_after
          example_session.2).2 = heap example_session.2 ∧
  figures (clear_frame_folder (host_with_ffmpeg 0) example_instance_after
             example_session.2).2 = figures example_session.2.
Proof.
  destruct (clear_frame_folder_only_removes (host_with_ffmpeg 0) example_instance_after
              example_session.2 _ example_clear_ok) as (Hheap & Hfig & _).
  split; assumption.
Defined.



(** One frame with a line over it, saved. *)
Definition line_calls : list method :=
  [DrawLine [PyInt 0; PyInt 1] [PyInt 0; PyInt 1]
     default_line_colour default_linestyle default_marker].

Lemma line_session_ok :
  ∃ self', calls (host_with_ffmpeg 0) example_instance
             (DrawFrame [[0; 1]; [2; 3]] :: line_calls ++ [PrintFrame]) example_init.2 =
           (Ok self', (calls (host_with_ffmpeg 0) example_instance
                         (DrawFrame [[0; 1]; [2; 3]] :: line_calls ++ [PrintFrame])
                         example_init.2).2).
Proof. vm_compute. eexists. reflexivity. Qed.

Lemma draw_then_print_closes_figure_witness :
  figures (calls (host_with_ffmpeg 0) example_instance
             (DrawFrame [[0; 1]; [2; 3]] :: line_calls ++ [PrintFrame])
             example_init.2).2 = figures example_init.2.
Proof.
  destruct line_session_ok as [self' Hrun].
  destruct (draw_then_print_closes_figure (host_with_ffmpeg 0) example_instance self'
              [[0; 1]; [2; 3]] line_calls example_init.2 _
              ltac:(repeat constructor) Hrun) as [Hfig _].
  exact Hfig.
Defined.

Lemma n_colours_within_table_witness :
  n_colours example_instance = Z.of_nat (length example_scheme) ∧
  n_colours example_instance ≤ Z.of_nat (length (cmap example_instance)).
Proof.
  exact (n_colours_within_table (host_with_ffmpeg 0) "test" 2%positive "visualisations"
           example_world example_init.2 example_scheme example_instance
           example_scheme_live example_scheme_NoDup example_scheme_keys example_init_ok).
Defined.


Lemma print_video_without_encoder_keeps_files_witness :
  fs (print_video host_without_ffmpeg example_instance_after 10 true example_session.2).2
    = fs example_session.2.
Proof.
  destruct (print_video_without_encoder_keeps_files host_without_ffmpeg
              example_instance_after 10 true example_session.2 eq_refl) as [Hfs _].
  exact Hfs.
Defined.

Lemma frame_files_distinct_witness :
  (format_09d 7 = format_09d 1000000007 → 7 = 1000000007) ∧
  (frame_file example_instance 7 = frame_file example_instance 1000000007 →
   7 = 1000000007).
Proof. apply (frame_files_distinct example_instance 7 1000000007); lia. Defined.

Lemma example_calls_draw_or_print :
  Forall (λ m, is_draw_or_print m = true) example_calls.
Proof. repeat constructor. Qed.

Lemma saved_frames_stay_witness :
  fs example_session.2 !! frame_file example_instance 1 = Some Regular.
Proof.
  destruct (saved_frames_stay (host_with_ffmpeg 0) example_calls example_instance
              example_instance_after example_init.2 example_session.2
              example_calls_draw_or_print example_session_ok) as [_ Hframes].
  apply Hframes; vm_compute; first [reflexivity | discriminate].
Defined.

Lemma create_colormap_repeatable_witness :
  create_colormap example_instance_after example_session.2 =
  (Ok (cmap example_instance_after), example_session.2).
Proof.
  exact (create_colormap_repeatable (host_with_ffmpeg 0) "test" 2%positive "visualisations"
           example_world example_init.2 example_session.2 example_scheme example_instance
           example_instance_after example_calls
           example_scheme_live example_init_ok example_session_ok).
Defined.

Lemma main_ok :
  main (host_with_ffmpeg 0) class_defined =
  (Ok tt, (main (host_with_ffmpeg 0) class_defined).2).
Proof. vm_compute. reflexivity. Qed.

Lemma main_saves_four_frames_witness :
  figures (main (host_with_ffmpeg 0) class_defined).2 = figures class_defined.
Proof.
  destruct (main_saves_four_frames (host_with_ffmpeg 0) class_defined _ main_ok)
    as [Hfig _].
  exact Hfig.
Defined.
